(** * ubeswap-info: the user context and its helpers

    A shallow embedding of the user context (the cache reducer and
    [useUserLiquidityChart]) and of the utility helpers that follow it in
    the source ([splitQuery], [getBlocksFromTimestamps],
    [getShareValueOverTime], [get2DayPercentChange], [getPercentChange]).

    Conventions of the embedding.
    - A JavaScript number is an IEEE 754 binary64 value: Rocq's primitive
      [float], whose operations are the ones the JavaScript engine runs.
    - Integer-valued fields of the GraphQL schema (timestamps, dates) are
      [Z]; the code only adds, compares and divides them by 86400, all of
      which is exact on doubles far beyond any Unix time.
    - A plain JavaScript object whose key order is observed ([for .. in],
      [Object.keys]) is an insertion-ordered association list ([Obj.t]);
      the reducer's state, where only lookups are observed, is a [gmap].
    - Network calls are recorded: a computation returns the requests it
      issued, in order, with its outcome. *)

From Stdlib Require Import ZArith List Floats Lia Bool Ascii Sorted.
From stdpp Require Import gmap strings list pretty.
Import ListNotations.

(* ================================================================== *)
(** * Part I: definitions *)
(* ================================================================== *)

(** ** JavaScript values the code handles *)

(** A GraphQL [BigDecimal] (declared as a string, and given as a number
    by some callers): either way the code reads it through [parseFloat]. *)
Inductive scalar : Type :=
  | SNum (x : float)
  | SStr (s : string).

Definition BigDecimal : Type := scalar.

Definition isNaN (x : float) : bool := PrimFloat.is_nan x.

Definition isFinite (x : float) : bool :=
  negb (PrimFloat.is_nan x) && negb (PrimFloat.is_infinity x).

(** [parseFloat(x.toString())] for a number [x]: the shortest decimal
    that [toString] prints reads back as the same double; the one value
    that changes is [-0], printed as ["0"]. *)
Definition reparse (x : float) : float :=
  if PrimFloat.eqb x 0 then 0%float else x.

(** [s.split(c)] for a one-character separator: the pieces between the
    occurrences of [c] (always at least one piece). *)
Fixpoint split_on (c : Ascii.ascii) (s : string) : list string :=
  match s with
  | EmptyString => [EmptyString]
  | String a rest =>
      if Ascii.eqb a c then EmptyString :: split_on c rest
      else
        match split_on c rest with
        | piece :: pieces => String a piece :: pieces
        | [] => [String a EmptyString]
        end
  end.

(** Truthiness of a possibly-undefined string: defined and not empty. *)
Definition truthy_string (s : option string) : bool :=
  match s with
  | Some (String _ _) => true
  | _ => false
  end.

(** ** Insertion-ordered objects

    The keys the code uses ([t<timestamp>] aliases, pair addresses) are
    not array indices, so [for .. in] and [Object.keys] list them in the
    order they were first set. *)

Module Obj.

Definition t (V : Type) : Type := list (string * V).

Definition empty {V : Type} : t V := [].

(** [o[k]] *)
Fixpoint get {V : Type} (o : t V) (k : string) : option V :=
  match o with
  | [] => None
  | (k', v) :: rest => if String.eqb k' k then Some v else get rest k
  end.

(** [o[k] = v]: an existing key keeps its place, a new one goes last. *)
Fixpoint set {V : Type} (o : t V) (k : string) (v : V) : t V :=
  match o with
  | [] => [(k, v)]
  | (k', v') :: rest =>
      if String.eqb k' k then (k', v) :: rest else (k', v') :: set rest k v
  end.

(** [Object.keys(o)] *)
Definition keys {V : Type} (o : t V) : list string := map fst o.

(** [{...a, ...b}] *)
Definition assign {V : Type} (a b : t V) : t V :=
  fold_left (fun acc kv => set acc (fst kv) (snd kv)) b a.

End Obj.

(** ** Recorded network calls *)

Inductive outcome (X : Type) : Type :=
  | Returned (x : X)
  | Threw
  | OutOfFuel.

Arguments Returned {X} x.
Arguments Threw {X}.
Arguments OutOfFuel {X}.

(** A computation that talks to a backend: the requests sent, oldest
    first, and how it ended. *)
Definition Fetch (R X : Type) : Type := (list R * outcome X)%type.

Definition ret {R X : Type} (x : X) : Fetch R X := ([], Returned x).

Definition throw {R X : Type} : Fetch R X := ([], Threw).

Definition bind {R X Y : Type} (m : Fetch R X) (k : X -> Fetch R Y) : Fetch R Y :=
  match m with
  | (sent, Returned x) => let '(sent', o) := k x in (sent ++ sent', o)
  | (sent, Threw) => (sent, Threw)
  | (sent, OutOfFuel) => (sent, OutOfFuel)
  end.

Notation "'await' x ':=' m 'in' k" := (bind m (fun x => k))
  (at level 10, x name, m at level 100, k at level 200).

(** [await client.query(q)]: one request [q] goes out; the promise
    resolves with the backend's data or rejects. *)
Definition query {R D : Type} (backend : R -> option D) (q : R) : Fetch R D :=
  match backend q with
  | Some data => ([q], Returned data)
  | None => ([q], Threw)
  end.

Definition requests {R X : Type} (m : Fetch R X) : list R := fst m.
Definition result {R X : Type} (m : Fetch R X) : outcome X := snd m.

(** ** The utilities: paginated queries *)

(** [list.slice(start, end)] for [0 <= start] and [end <= list.length]
    (what [splitQuery] passes); empty when [end <= start]. *)
Definition slice {A : Type} (l : list A) (start end_ : nat) : list A :=
  firstn (end_ - start) (skipn start l).

Section SplitQuery.

(** [A]: the items of [list]; [V]: the values of the response object;
    [R]: the request built by [query(...vars, sliced)]. *)
Context {A V R : Type}.
Variable query_of : list A -> R.
Variable localClient : R -> option (Obj.t V).

(** The [while (!allFound)] loop, entered with the current
    [fetchedData] and [skip]; [fuel] bounds the iterations. *)
Fixpoint splitQuery_loop (fuel : nat) (list : list A) (skipCount : nat)
    (fetchedData : Obj.t V) (skip : nat) : Fetch R (Obj.t V) :=
  match fuel with
  | O => ([], OutOfFuel)
  | S fuel' =>
      let end_ :=
        if skip + skipCount <? length list then skip + skipCount
        else length list in
      let sliced := slice list skip end_ in
      await data := query localClient (query_of sliced) in
      let fetchedData' := Obj.assign fetchedData data in
      if (length (Obj.keys data) <? skipCount)
         || (length list <? skip + skipCount)
      then ret fetchedData'
      else splitQuery_loop fuel' list skipCount fetchedData' (skip + skipCount)
  end.

Definition splitQuery (fuel : nat) (list : list A) (skipCount : nat)
    : Fetch R (Obj.t V) :=
  splitQuery_loop fuel list skipCount Obj.empty 0.

End SplitQuery.

(** [skipCount = 100] when the caller gives none. *)
Definition splitQuery_default_skipCount : nat := 100.

(** ** The utilities: blocks and share values *)

Module Block.
Record t : Type := mk { timestamp : float; number : float }.
End Block.

(** A block as the block subgraph returns it. *)
Module BlockRow.
Record t : Type := mk { number : string }.
End BlockRow.

Module Token.
Record t : Type := mk { derivedCUSD : option BigDecimal }.
End Token.

(** The [ShareValueFragment] of one historical pair state. *)
Module ShareValueFragment.
Record t : Type := mk {
  totalSupply : BigDecimal;
  reserve0 : BigDecimal;
  reserve1 : BigDecimal;
  reserveUSD : BigDecimal;
  token0 : Token.t;
  token1 : Token.t
}.
End ShareValueFragment.

Module ShareValueSnapshot.
Record t : Type := mk {
  timestamp : float;
  sharePriceUsd : float;
  totalSupply : BigDecimal;
  reserve0 : BigDecimal;
  reserve1 : BigDecimal;
  reserveUSD : BigDecimal;
  token0DerivedCUSD : option BigDecimal;
  token1DerivedCUSD : option BigDecimal;
  roiUsd : float;
  token0PriceUSD : float;
  token1PriceUSD : float
}.
End ShareValueSnapshot.

(** The queries of [apollo/queries] this file sends. *)
Inductive request : Type :=
  | GET_BLOCKS (timestamps : list Z)
  | SHARE_VALUE (pairAddress : string) (blocks : list Block.t)
  | PAIR_DAY_DATA_BULK (pairs : list string) (startTimestamp : option Z).

(** What a backend answers to a request (each client answers its own
    kind of query). *)
Definition blockClient_t : Type := request -> option (Obj.t (list BlockRow.t)).
Definition shareClient_t : Type :=
  request -> option (Obj.t (option ShareValueFragment.t)).

(** [getTimestampRange]: [periods + 1] timestamps, [period_length] apart. *)
Definition getTimestampRange (timestamp_from period_length : Z) (periods : nat)
    : list Z :=
  map (fun i => (timestamp_from + Z.of_nat i * period_length)%Z)
      (seq 0 (S periods)).

Section Blocks.

(** [parseInt] on a string (a JavaScript built-in), and on the
    [undefined] that [t.split('t')[1]] gives for a key without a [t]. *)
Variable parseInt : option string -> float.
(** [toFloat] of [utils/typeAssertions]. *)
Variable toFloat : option BigDecimal -> float.

Definition getBlocksFromTimestamps_default_skipCount : nat := 500.

(** The [for (const t in fetchedData)] loop. *)
Definition blocks_of (fetchedData : Obj.t (list BlockRow.t)) : list Block.t :=
  fold_left
    (fun blocks row =>
       let '(t, found) := row in
       match found with
       | first :: _ =>
           blocks ++
             [ Block.mk (parseInt (nth_error (split_on "t"%char t) 1))
                        (parseInt (Some (BlockRow.number first))) ]
       | [] => blocks
       end)
    fetchedData [].

(** [timestamps] is [None] when the caller passes [undefined]:
    [splitQuery] then throws on [list.length]. *)
Definition getBlocksFromTimestamps (fuel : nat) (blockClient : blockClient_t)
    (timestamps : option (list Z)) (skipCount : nat)
    : Fetch request (list Block.t) :=
  match timestamps with
  | Some [] => ret []
  | Some ts =>
      await fetchedData := splitQuery GET_BLOCKS blockClient fuel ts skipCount in
      ret (blocks_of fetchedData)
  | None => throw
  end.

(** One step of the [for (const row in result?.data)] loop. *)
Definition shareValue_step (values : list ShareValueSnapshot.t)
    (entry : string * option ShareValueFragment.t)
    : list ShareValueSnapshot.t :=
  let '(row, data) := entry in
  let timestamp := nth_error (split_on "t"%char row) 1 in
  match data with
  | Some data =>
      if truthy_string timestamp then
        let sharePriceUsd :=
          (toFloat (Some (ShareValueFragment.reserveUSD data))
           / toFloat (Some (ShareValueFragment.totalSupply data)))%float in
        values ++
          [ {| ShareValueSnapshot.timestamp := parseInt timestamp;
               ShareValueSnapshot.sharePriceUsd := sharePriceUsd;
               ShareValueSnapshot.totalSupply := ShareValueFragment.totalSupply data;
               ShareValueSnapshot.reserve0 := ShareValueFragment.reserve0 data;
               ShareValueSnapshot.reserve1 := ShareValueFragment.reserve1 data;
               ShareValueSnapshot.reserveUSD := ShareValueFragment.reserveUSD data;
               ShareValueSnapshot.token0DerivedCUSD :=
                 Token.derivedCUSD (ShareValueFragment.token0 data);
               ShareValueSnapshot.token1DerivedCUSD :=
                 Token.derivedCUSD (ShareValueFragment.token1 data);
               ShareValueSnapshot.roiUsd :=
                 match values with
                 | first :: _ =>
                     (sharePriceUsd / ShareValueSnapshot.sharePriceUsd first)%float
                 | [] => 1%float
                 end;
               ShareValueSnapshot.token0PriceUSD :=
                 toFloat (Token.derivedCUSD (ShareValueFragment.token0 data));
               ShareValueSnapshot.token1PriceUSD :=
                 toFloat (Token.derivedCUSD (ShareValueFragment.token1 data)) |} ]
      else values
  | None => values
  end.

Definition shareValues (data : Obj.t (option ShareValueFragment.t))
    : list ShareValueSnapshot.t :=
  fold_left shareValue_step data [].

(** [utcSevenDaysBack] is what [dayjs().subtract(8, 'day').unix()]
    reads from the clock. *)
Definition getShareValueOverTime (fuel : nat) (blockClient : blockClient_t)
    (client : shareClient_t) (utcSevenDaysBack : Z)
    (pairAddress : string) (timestamps : option (list Z))
    : Fetch request (list ShareValueSnapshot.t) :=
  let timestamps :=
    match timestamps with
    | Some ts => ts
    | None => getTimestampRange utcSevenDaysBack 86400 7
    end in
  await blocks :=
    getBlocksFromTimestamps fuel blockClient (Some timestamps)
      getBlocksFromTimestamps_default_skipCount in
  await data := query client (SHARE_VALUE pairAddress blocks) in
  ret (shareValues data).

End Blocks.

(** ** The utilities: percent changes *)

Section Numbers.

(** [parseFloat] on a string (a JavaScript built-in). *)
Variable parseFloatStr : string -> float.

(** [parseFloat(v)]: a number is first printed by [ToString]. *)
Definition parseFloat (v : BigDecimal) : float :=
  match v with
  | SNum x => reparse x
  | SStr s => parseFloatStr s
  end.

(** [parseFloat(v)] for a parameter declared with the default ['0'],
    and [parseFloat(v?.toString() ?? '0')]: an absent [v] reads as 0. *)
Definition parseFloat_or_0 (v : option BigDecimal) : float :=
  match v with
  | Some b => parseFloat b
  | None => 0%float
  end.

Definition get2DayPercentChange (valueNow : BigDecimal)
    (value24HoursAgo value48HoursAgo : option BigDecimal) : float * float :=
  let currentChange :=
    (parseFloat valueNow - parseFloat_or_0 value24HoursAgo)%float in
  let previousChange :=
    (parseFloat_or_0 value24HoursAgo - parseFloat_or_0 value48HoursAgo)%float in
  let adjustedPercentChange :=
    (reparse (currentChange - previousChange) / reparse previousChange * 100)%float in
  if isNaN adjustedPercentChange || negb (isFinite adjustedPercentChange)
  then (currentChange, 0%float)
  else (currentChange, adjustedPercentChange).

Definition getPercentChange (valueNow value24HoursAgo : option BigDecimal)
    : float :=
  let adjustedPercentChange :=
    ((parseFloat_or_0 valueNow - parseFloat_or_0 value24HoursAgo)
     / parseFloat_or_0 value24HoursAgo * 100)%float in
  if isNaN adjustedPercentChange || negb (isFinite adjustedPercentChange)
  then 0%float
  else adjustedPercentChange.

End Numbers.

(** ** The user context: the daily liquidity chart *)

Module Snapshot.
(** A [liquidityPositionSnapshot]; [pair_id] is [snapshot.pair.id]. *)
Record t : Type := mk {
  timestamp : Z;
  pair_id : string;
  liquidityTokenBalance : BigDecimal
}.
End Snapshot.

Module PairDayData.
Record t : Type := mk {
  date : Z;
  pairAddress : string;
  totalSupply : BigDecimal;
  reserveUSD : BigDecimal
}.
End PairDayData.

(** An entry of [ownershipPerPair]. *)
Module Ownership.
Record t : Type := mk { lpTokenBalance : BigDecimal; timestamp : Z }.
End Ownership.

(** An entry of [formattedHistory]. *)
Module ChartEntry.
Record t : Type := mk { date : Z; valueUSD : float }.
End ChartEntry.

Definition dayClient_t : Type := request -> option (list PairDayData.t).

(** The comparator of [history.slice().sort(...)]. *)
Definition compare_snapshots (a b : Snapshot.t) : Z :=
  if (Snapshot.timestamp a >? Snapshot.timestamp b)%Z then 1%Z else (-1)%Z.

Fixpoint insert_snapshot (a : Snapshot.t) (sorted : list Snapshot.t)
    : list Snapshot.t :=
  match sorted with
  | [] => [a]
  | b :: rest =>
      if (compare_snapshots a b >? 0)%Z then b :: insert_snapshot a rest
      else a :: b :: rest
  end.

(** [history.slice().sort(compare)], as an insertion sort. The comparator
    never answers 0, so the order among snapshots of equal timestamp is
    the engine's choice; the caller reads the timestamp of element 0 only. *)
Definition sort_snapshots (history : list Snapshot.t) : list Snapshot.t :=
  fold_right insert_snapshot [] history.

(** The [while (dayIndex < currentDayIndex)] loop, run [n] times. *)
Fixpoint days_from (dayIndex : Z) (n : nat) : list Z :=
  match n with
  | O => []
  | S n' => (dayIndex * 86400)%Z :: days_from (dayIndex + 1)%Z n'
  end.

Definition dayTimestamps_of (dayIndex currentDayIndex : Z) : list Z :=
  days_from dayIndex (Z.to_nat (currentDayIndex - dayIndex)).

(** The start of the iteration: [Math.floor] is [Z.div]; [parseInt] of a
    printed quotient drops the fraction, [Z.quot]. *)
Definition start_dayIndex (startDateTimestamp : option Z)
    (sortedPositions : list Snapshot.t) : option Z :=
  let dayIndex :=
    match startDateTimestamp with
    | Some s => if (s =? 0)%Z then 0%Z else (s / 86400)%Z
    | None => 0%Z
    end in
  match sortedPositions with
  | [] => None
  | first :: _ =>
      if (Snapshot.timestamp first >? dayIndex)%Z
      then Some (Z.quot (Snapshot.timestamp first) 86400)
      else Some dayIndex
  end.

(** The body of [for (const index in relevantPositions)]. *)
Definition update_ownership (ownershipPerPair : Obj.t Ownership.t)
    (position : Snapshot.t) : Obj.t Ownership.t :=
  let id := Snapshot.pair_id position in
  let entry :=
    Ownership.mk (Snapshot.liquidityTokenBalance position)
                 (Snapshot.timestamp position) in
  let ownershipPerPair :=
    match Obj.get ownershipPerPair id with
    | None => Obj.set ownershipPerPair id entry
    | Some _ => ownershipPerPair
    end in
  match Obj.get ownershipPerPair id with
  | Some known =>
      if (Ownership.timestamp known <? Snapshot.timestamp position)%Z
      then Obj.set ownershipPerPair id entry
      else ownershipPerPair
  | None => ownershipPerPair
  end.

Definition relevantPositions_of (history : list Snapshot.t) (dayTimestamp : Z)
    : list Snapshot.t :=
  let timestampCeiling := (dayTimestamp + 86400)%Z in
  List.filter
    (fun snapshot =>
       (Snapshot.timestamp snapshot <? timestampCeiling)%Z
       && (Snapshot.timestamp snapshot >? dayTimestamp)%Z)
    history.

(** The body of the scan for [mostRecent]. *)
Definition mostRecent_step (dayTimestamp : Z)
    (mostRecent dayData : PairDayData.t) : PairDayData.t :=
  if (PairDayData.date dayData <? dayTimestamp)%Z
     && (PairDayData.date dayData >? PairDayData.date mostRecent)%Z
  then dayData
  else mostRecent.

(** The scan, seeded with [dayDatasForThisPair[0]]; [None] is the
    [undefined] that the seed is on an empty list. *)
Definition mostRecent_of (dayTimestamp : Z)
    (dayDatasForThisPair : list PairDayData.t) : option PairDayData.t :=
  match dayDatasForThisPair with
  | [] => None
  | first :: _ =>
      Some (fold_left (mostRecent_step dayTimestamp) dayDatasForThisPair first)
  end.

Definition dayDatasForThisPair_of (pairDayDatas : list PairDayData.t)
    (pairAddress : string) : list PairDayData.t :=
  List.filter
    (fun dayData => String.eqb (PairDayData.pairAddress dayData) pairAddress)
    pairDayDatas.

Section LiquidityChart.

Variable parseFloatStr : string -> float.

(** What one pool adds to the day's sum. *)
Definition contributedUSD (ownershipPerPair : Obj.t Ownership.t)
    (dayData : PairDayData.t) : float :=
  match Obj.get ownershipPerPair (PairDayData.pairAddress dayData) with
  | Some known =>
      (parseFloat parseFloatStr (Ownership.lpTokenBalance known)
       / parseFloat parseFloatStr (PairDayData.totalSupply dayData)
       * parseFloat parseFloatStr (PairDayData.reserveUSD dayData))%float
  | None => 0%float
  end.

(** The reducer of [relavantDayDatas.reduce(..., 0)]. *)
Definition add_dayData (ownershipPerPair : Obj.t Ownership.t)
    (totalUSD : float) (dayData : option PairDayData.t) : float :=
  match dayData with
  | Some dayData => (totalUSD + contributedUSD ownershipPerPair dayData)%float
  | None => totalUSD
  end.

Definition relavantDayDatas_of (ownershipPerPair : Obj.t Ownership.t)
    (pairDayDatas : list PairDayData.t) (dayTimestamp : Z)
    : list (option PairDayData.t) :=
  map (fun pairAddress =>
         mostRecent_of dayTimestamp
           (dayDatasForThisPair_of pairDayDatas pairAddress))
      (Obj.keys ownershipPerPair).

Definition dailyUSD_of (ownershipPerPair : Obj.t Ownership.t)
    (pairDayDatas : list PairDayData.t) (dayTimestamp : Z) : float :=
  fold_left (add_dayData ownershipPerPair)
    (relavantDayDatas_of ownershipPerPair pairDayDatas dayTimestamp) 0%float.

(** The body of [for (const index in dayTimestamps)], on the pair
    ([ownershipPerPair], [formattedHistory]). *)
Definition day_step (history : list Snapshot.t)
    (pairDayDatas : list PairDayData.t)
    (state : Obj.t Ownership.t * list ChartEntry.t) (dayTimestamp : Z)
    : Obj.t Ownership.t * list ChartEntry.t :=
  let '(ownershipPerPair, formattedHistory) := state in
  let ownershipPerPair :=
    fold_left update_ownership (relevantPositions_of history dayTimestamp)
      ownershipPerPair in
  (ownershipPerPair,
   formattedHistory ++
     [ ChartEntry.mk dayTimestamp
         (dailyUSD_of ownershipPerPair pairDayDatas dayTimestamp) ]).

Definition run_days (history : list Snapshot.t)
    (pairDayDatas : list PairDayData.t) (dayTimestamps : list Z)
    : Obj.t Ownership.t * list ChartEntry.t :=
  fold_left (day_step history pairDayDatas) dayTimestamps (Obj.empty, []).

(** [fetchData] of the second effect; [now] is [dayjs.utc().unix()]. *)
Definition fetchData (client : dayClient_t) (now : Z)
    (history : list Snapshot.t) (startDateTimestamp : option Z)
    : Fetch request (list ChartEntry.t) :=
  let currentDayIndex := Z.quot now 86400 in
  let sortedPositions := sort_snapshots history in
  match start_dayIndex startDateTimestamp sortedPositions with
  | None => throw
  | Some dayIndex =>
      let dayTimestamps := dayTimestamps_of dayIndex currentDayIndex in
      let pairs := map Snapshot.pair_id history in
      await pairDayDatas :=
        query client (PAIR_DAY_DATA_BULK pairs startDateTimestamp) in
      ret (snd (run_days history pairDayDatas dayTimestamps))
  end.

(** The second effect of [useUserLiquidityChart]: [None] when the guard
    [history && startDateTimestamp && history.length > 0] fails and
    nothing is fetched. *)
Definition useUserLiquidityChart (client : dayClient_t) (now : Z)
    (history : option (list Snapshot.t)) (startDateTimestamp : option Z)
    : option (Fetch request (list ChartEntry.t)) :=
  match history, startDateTimestamp with
  | Some h, Some s =>
      if negb (s =? 0)%Z && (0 <? length h)
      then Some (fetchData client now h startDateTimestamp)
      else None
  | _, _ => None
  end.

End LiquidityChart.

(** ** The user context: the cache reducer *)

Definition UPDATE_TRANSACTIONS : string := "UPDATE_TRANSACTIONS".
Definition UPDATE_POSITIONS : string := "UPDATE_POSITIONS ".
Definition UPDATE_MINING_POSITIONS : string := "UPDATE_MINING_POSITIONS".
Definition UPDATE_USER_POSITION_HISTORY : string := "UPDATE_USER_POSITION_HISTORY".
Definition UPDATE_USER_PAIR_RETURNS : string := "UPDATE_USER_PAIR_RETURNS".

Definition TRANSACTIONS_KEY : string := "TRANSACTIONS_KEY".
Definition POSITIONS_KEY : string := "POSITIONS_KEY".
Definition MINING_POSITIONS_KEY : string := "MINING_POSITIONS_KEY".
Definition USER_SNAPSHOTS : string := "USER_SNAPSHOTS".
Definition USER_PAIR_RETURNS_KEY : string := "USER_PAIR_RETURNS_KEY".

Inductive prim : Type :=
  | PUndefined
  | PNull
  | PBool (b : bool)
  | PNum (x : float).

(** The values the cache holds: primitives without own enumerable
    properties, and objects (arrays included) by their own enumerable
    properties. Keys are account and pair addresses and the five cache
    keys, none of which names a property of [Object.prototype]. *)
#[warnings="-register-all"]
Inductive jsval : Type :=
  | JPrim (p : prim)
  | JObj (props : gmap string jsval).

Definition undefined : jsval := JPrim PUndefined.

(** The properties that [{...v}] copies. *)
Definition spread (v : jsval) : gmap string jsval :=
  match v with
  | JObj props => props
  | JPrim _ => ∅
  end.

(** [v?.[k]] *)
Definition prop (v : jsval) (k : string) : jsval :=
  default undefined (spread v !! k).

Module Payload.
(** The fields the reducer destructures; [account] and [pairAddress]
    are property keys. *)
Record t : Type := mk {
  account : string;
  pairAddress : string;
  transactions : jsval;
  positions : jsval;
  miningPositions : jsval;
  historyData : jsval;
  data : jsval
}.
End Payload.

(** [{...state, [account]: {...state?.[account], [key]: value}}] *)
Definition set_account_key (state : jsval) (account key : string)
    (value : jsval) : jsval :=
  JObj (<[account := JObj (<[key := value]> (spread (prop state account)))]>
          (spread state)).

(** [None]: the [default] case throws. *)
Definition reducer (state : jsval) (type : string) (payload : Payload.t)
    : option jsval :=
  let account := Payload.account payload in
  if String.eqb type UPDATE_TRANSACTIONS then
    Some (set_account_key state account TRANSACTIONS_KEY
            (Payload.transactions payload))
  else if String.eqb type UPDATE_POSITIONS then
    Some (set_account_key state account POSITIONS_KEY
            (Payload.positions payload))
  else if String.eqb type UPDATE_MINING_POSITIONS then
    Some (set_account_key state account MINING_POSITIONS_KEY
            (Payload.miningPositions payload))
  else if String.eqb type UPDATE_USER_POSITION_HISTORY then
    Some (set_account_key state account USER_SNAPSHOTS
            (Payload.historyData payload))
  else if String.eqb type UPDATE_USER_PAIR_RETURNS then
    Some (set_account_key state account USER_PAIR_RETURNS_KEY
            (JObj (<[Payload.pairAddress payload := Payload.data payload]>
                     (spread (prop (prop state account) USER_PAIR_RETURNS_KEY)))))
  else None.

Definition INITIAL_STATE : jsval := JObj ∅.

(** The cache key an action type writes. *)
Definition written_key (type : string) : option string :=
  if String.eqb type UPDATE_TRANSACTIONS then Some TRANSACTIONS_KEY
  else if String.eqb type UPDATE_POSITIONS then Some POSITIONS_KEY
  else if String.eqb type UPDATE_MINING_POSITIONS then Some MINING_POSITIONS_KEY
  else if String.eqb type UPDATE_USER_POSITION_HISTORY then Some USER_SNAPSHOTS
  else if String.eqb type UPDATE_USER_PAIR_RETURNS then Some USER_PAIR_RETURNS_KEY
  else None.

(** ** Notions used in the statements *)

(** The fragments of a share-value response that the loop of
    [getShareValueOverTime] turns into samples, in order: those under a
    key with something after its first [t] and with data. *)
Definition accepted_fragments (data : Obj.t (option ShareValueFragment.t))
    : list ShareValueFragment.t :=
  flat_map
    (fun entry : string * option ShareValueFragment.t =>
       match snd entry with
       | Some d =>
           if truthy_string (nth_error (split_on "t"%char (fst entry)) 1)
           then [d] else []
       | None => []
       end)
    data.

(** The share price of a pair state: [reserveUSD / totalSupply]. *)
Definition price_of (toFloat : option BigDecimal -> float)
    (d : ShareValueFragment.t) : float :=
  (toFloat (Some (ShareValueFragment.reserveUSD d))
   / toFloat (Some (ShareValueFragment.totalSupply d)))%float.

(** The baseline of a share-value series: the first ROI is 1 and every
    later one is the ratio of its price to the first price. *)
Definition roi_baseline (values : list ShareValueSnapshot.t) : Prop :=
  match values with
  | [] => True
  | first :: rest =>
      ShareValueSnapshot.roiUsd first = 1%float
      /\ Forall
           (fun v =>
              ShareValueSnapshot.roiUsd v
              = (ShareValueSnapshot.sharePriceUsd v
                 / ShareValueSnapshot.sharePriceUsd first)%float)
           rest
  end.

(** [ceil(n / p)] *)
Definition ceil_div (n p : nat) : nat := (n + p - 1) / p.

(** A backend answers in full when each response has one key per
    requested item. *)
Definition answers_in_full {A V R : Type} (query_of : list A -> R)
    (localClient : R -> option (Obj.t V)) : Prop :=
  forall sliced,
    exists data,
      localClient (query_of sliced) = Some data
      /\ length (Obj.keys data) = length sliced.

(** The entry [update_ownership] writes for a snapshot. *)
Definition entry_of (position : Snapshot.t) : Ownership.t :=
  Ownership.mk (Snapshot.liquidityTokenBalance position)
               (Snapshot.timestamp position).

(** What [update_ownership] leaves under the snapshot's pool: the
    snapshot's entry when the pool is new or its entry is older. *)
Definition latest (known : option Ownership.t) (position : Snapshot.t)
    : option Ownership.t :=
  match known with
  | None => Some (entry_of position)
  | Some k =>
      if (Ownership.timestamp k <? Snapshot.timestamp position)%Z
      then Some (entry_of position)
      else Some k
  end.

(** The snapshots a day bucket takes in: strictly after its start and
    strictly before the next one. *)
Definition in_window (dayTimestamp : Z) (snapshot : Snapshot.t) : Prop :=
  (dayTimestamp < Snapshot.timestamp snapshot < dayTimestamp + 86400)%Z.

(** Every entry of the ownership map is older than [bound]. *)
Definition entries_before (bound : Z) (ownershipPerPair : Obj.t Ownership.t)
    : Prop :=
  forall id known,
    Obj.get ownershipPerPair id = Some known ->
    (Ownership.timestamp known < bound)%Z.

(** The day bucket of the glossary: from its start up to the next one. *)
Definition in_bucket (dayTimestamp : Z) (snapshot : Snapshot.t) : Prop :=
  (dayTimestamp <= Snapshot.timestamp snapshot < dayTimestamp + 86400)%Z.

(** The record a pool is valued with on a day, told from the pool's daily
    records in the order the backend lists them: none when the pool has
    none; the first listed one when that is dated on or after the day;
    else the first listed of those with the largest date before the day. *)
Definition values_pool (pairDayDatas : list PairDayData.t) (dayTimestamp : Z)
    (pairAddress : string) (record : option PairDayData.t) : Prop :=
  let listed :=
    List.filter
      (fun dayData => String.eqb (PairDayData.pairAddress dayData) pairAddress)
      pairDayDatas in
  match listed with
  | [] => record = None
  | first :: _ =>
      exists found,
        record = Some found
        /\ if (PairDayData.date first <? dayTimestamp)%Z
           then
             (PairDayData.date found < dayTimestamp)%Z
             /\ Forall
                  (fun dayData =>
                     (PairDayData.date dayData < dayTimestamp)%Z ->
                     (PairDayData.date dayData <= PairDayData.date found)%Z)
                  listed
             /\ exists earlier later,
                  listed = earlier ++ found :: later
                  /\ Forall
                       (fun dayData =>
                          (PairDayData.date dayData < dayTimestamp)%Z ->
                          (PairDayData.date dayData < PairDayData.date found)%Z)
                       earlier
           else found = first
  end.

(** What a pool adds to a day's sum when it is valued with [record]: its
    share [lpTokenBalance / totalSupply] of the record's reserve, and
    nothing without a record. *)
Definition add_pool_usd (parseFloatStr : string -> float)
    (ownershipPerPair : Obj.t Ownership.t) (totalUSD : float)
    (valued : string * option PairDayData.t) : float :=
  match Obj.get ownershipPerPair (fst valued), snd valued with
  | Some known, Some record =>
      (totalUSD
       + parseFloat parseFloatStr (Ownership.lpTokenBalance known)
         / parseFloat parseFloatStr (PairDayData.totalSupply record)
         * parseFloat parseFloatStr (PairDayData.reserveUSD record))%float
  | _, _ => totalUSD
  end.

(** ** Inputs used by the examples *)

(** A [toFloat] that reads a numeric scalar as it is and anything else
    as [NaN]. *)
Definition toFloat_num (v : option BigDecimal) : float :=
  match v with
  | Some (SNum x) => x
  | _ => nan
  end.

(** [parseInt] on the strings of the examples: the number written by the
    leading decimal digits, [NaN] when there is none (or no string). *)
Definition digit_of (a : Ascii.ascii) : option float :=
  match a with
  | "0"%char => Some 0%float | "1"%char => Some 1%float
  | "2"%char => Some 2%float | "3"%char => Some 3%float
  | "4"%char => Some 4%float | "5"%char => Some 5%float
  | "6"%char => Some 6%float | "7"%char => Some 7%float
  | "8"%char => Some 8%float | "9"%char => Some 9%float
  | _ => None
  end.

Fixpoint digits_from (acc : float) (s : string) : float :=
  match s with
  | String a rest =>
      match digit_of a with
      | Some d => digits_from (acc * 10 + d)%float rest
      | None => acc
      end
  | EmptyString => acc
  end.

Definition parseInt_digits (s : option string) : float :=
  match s with
  | Some (String a rest) =>
      match digit_of a with
      | Some d => digits_from d rest
      | None => nan
      end
  | _ => nan
  end.

(** A [parseFloat] on strings for examples that hold their numbers as
    numbers and never call it. *)
Definition parseFloatStr_nan (s : string) : float := nan.

(** A pair state with the given total supply and USD reserve. *)
Definition fragment_of (totalSupply reserveUSD : float) : ShareValueFragment.t :=
  {| ShareValueFragment.totalSupply := SNum totalSupply;
     ShareValueFragment.reserve0 := SNum 0;
     ShareValueFragment.reserve1 := SNum 0;
     ShareValueFragment.reserveUSD := SNum reserveUSD;
     ShareValueFragment.token0 := Token.mk None;
     ShareValueFragment.token1 := Token.mk None |}.

(** A block subgraph that knows one block per requested timestamp. *)
Definition blockClient_two : blockClient_t :=
  fun _ => Some [("t1000"%string, [BlockRow.mk "7"]);
                 ("t2000"%string, [BlockRow.mk "8"])].

(** An exchange subgraph answering with two pair states. *)
Definition shareClient_of (first second : ShareValueFragment.t) : shareClient_t :=
  fun _ => Some [("t1000"%string, Some first); ("t2000"%string, Some second)].

(** A cache with one account that has its positions and one pair's
    returns, and another account that has its snapshots. *)
Definition example_state : jsval :=
  JObj (<["0xa"%string :=
            JObj (<[POSITIONS_KEY := JPrim (PNum 1)]>
                    (<[USER_PAIR_RETURNS_KEY :=
                         JObj (<["0xp1"%string := JPrim (PNum 2)]> ∅)]> ∅))]>
          (<["0xb"%string := JObj (<[USER_SNAPSHOTS := JPrim (PNum 3)]> ∅)]> ∅)).

Definition example_payload : Payload.t :=
  {| Payload.account := "0xa";
     Payload.pairAddress := "0xp2";
     Payload.transactions := JPrim (PNum 4);
     Payload.positions := JPrim (PNum 5);
     Payload.miningPositions := JPrim (PNum 6);
     Payload.historyData := JPrim (PNum 7);
     Payload.data := JPrim (PNum 8) |}.

(** A backend that answers every request in full: one entry per
    requested item, under the item's name. *)
Definition full_pages (sliced : list string) : option (Obj.t unit) :=
  Some (map (fun k => (k, tt)) sliced).

(** Snapshots and day data of the one pool [A] of the examples. *)
Definition snapshot_A (timestamp : Z) (balance : float) : Snapshot.t :=
  Snapshot.mk timestamp "A" (SNum balance).

Definition dayData_A (date : Z) (totalSupply reserveUSD : float)
    : PairDayData.t :=
  PairDayData.mk date "A" (SNum totalSupply) (SNum reserveUSD).

(** An exchange subgraph that answers the bulk query with these records. *)
Definition dayClient_of (pairDayDatas : list PairDayData.t) : dayClient_t :=
  fun _ => Some pairDayDatas.

(** ** The user context: the hooks on the cache *)

(** The queries of the account hooks. *)
Inductive user_request : Type :=
  | USER_TRANSACTIONS (user : string)
  | USER_HISTORY (skip : nat) (user : string).

(** Truthiness of a cache value. *)
Definition truthy (v : jsval) : bool :=
  match v with
  | JObj _ => true
  | JPrim PUndefined => false
  | JPrim PNull => false
  | JPrim (PBool b) => b
  | JPrim (PNum x) => negb (PrimFloat.is_nan x || PrimFloat.eqb x 0)
  end.

(** Truthiness of an account: a non-empty string (an [undefined]
    account is falsy like the empty one). *)
Definition truthy_key (account : string) : bool :=
  match account with
  | EmptyString => false
  | String _ _ => true
  end.

(** An array as a cache value: its own enumerable properties are its
    indices. *)
Definition array_of (items : list jsval) : jsval :=
  JObj (list_to_map (imap (fun i item => (pretty i, item)) items)).

(** The five callbacks of [Provider]: the state after the dispatch,
    [None] if the reducer threw. The payload has the named fields only:
    the others read [undefined]. *)
Definition updateTransactions (state : jsval) (account : string)
    (transactions : jsval) : option jsval :=
  reducer state UPDATE_TRANSACTIONS
    {| Payload.account := account;
       Payload.pairAddress := "undefined";
       Payload.transactions := transactions;
       Payload.positions := undefined;
       Payload.miningPositions := undefined;
       Payload.historyData := undefined;
       Payload.data := undefined |}.

Definition updatePositions (state : jsval) (account : string)
    (positions : jsval) : option jsval :=
  reducer state UPDATE_POSITIONS
    {| Payload.account := account;
       Payload.pairAddress := "undefined";
       Payload.transactions := undefined;
       Payload.positions := positions;
       Payload.miningPositions := undefined;
       Payload.historyData := undefined;
       Payload.data := undefined |}.

Definition updateMiningPositions (state : jsval) (account : string)
    (miningPositions : jsval) : option jsval :=
  reducer state UPDATE_MINING_POSITIONS
    {| Payload.account := account;
       Payload.pairAddress := "undefined";
       Payload.transactions := undefined;
       Payload.positions := undefined;
       Payload.miningPositions := miningPositions;
       Payload.historyData := undefined;
       Payload.data := undefined |}.

Definition updateUserSnapshots (state : jsval) (account : string)
    (historyData : jsval) : option jsval :=
  reducer state UPDATE_USER_POSITION_HISTORY
    {| Payload.account := account;
       Payload.pairAddress := "undefined";
       Payload.transactions := undefined;
       Payload.positions := undefined;
       Payload.miningPositions := undefined;
       Payload.historyData := historyData;
       Payload.data := undefined |}.

Definition updateUserPairReturns (state : jsval) (account pairAddress : string)
    (data : jsval) : option jsval :=
  reducer state UPDATE_USER_PAIR_RETURNS
    {| Payload.account := account;
       Payload.pairAddress := pairAddress;
       Payload.transactions := undefined;
       Payload.positions := undefined;
       Payload.miningPositions := undefined;
       Payload.historyData := undefined;
       Payload.data := data |}.

(** What the hooks read: [state?.[account]?.[KEY]]. *)
Definition read_key (state : jsval) (account key : string) : jsval :=
  prop (prop state account) key.

(** [state?.[account]?.[USER_PAIR_RETURNS_KEY]?.[pairAddress]] *)
Definition read_pair_returns (state : jsval) (account pairAddress : string)
    : jsval :=
  prop (read_key state account USER_PAIR_RETURNS_KEY) pairAddress.

(** The state after a callback; the state itself had the reducer thrown. *)
Definition after_dispatch (state : jsval) (next : option jsval) : jsval :=
  match next with
  | Some state' => state'
  | None => state
  end.

(** The effect of [useUserTransactions]: the requests it sends and the
    state it leaves, no other dispatch coming in between. The backend
    answers a query with its [data], or fails; a failure is caught and
    logged. *)
Definition useUserTransactions_effect (client : user_request -> option jsval)
    (state : jsval) (account : string) : list user_request * jsval :=
  let transactions := read_key state account TRANSACTIONS_KEY in
  if negb (truthy transactions) && truthy_key account then
    match client (USER_TRANSACTIONS account) with
    | Some data =>
        if truthy data
        then ([USER_TRANSACTIONS account],
              after_dispatch state (updateTransactions state account data))
        else ([USER_TRANSACTIONS account], state)
    | None => ([USER_TRANSACTIONS account], state)
    end
  else ([], state).

(** What [useUserTransactions] returns: [transactions || {}]. *)
Definition useUserTransactions (state : jsval) (account : string) : jsval :=
  let transactions := read_key state account TRANSACTIONS_KEY in
  if truthy transactions then transactions else JObj ∅.

Section UserHistory.

(** The snapshots as the backend lists them. *)
Context {A : Type}.
Variable client : user_request -> option (list A).
Variable account : string.

(** The [while (!found)] loop of [useUserSnapshots], entered with the
    current [allResults] and [skip]. *)
Fixpoint userHistory_loop (fuel : nat) (allResults : list A) (skip : nat)
    : Fetch user_request (list A) :=
  match fuel with
  | O => ([], OutOfFuel)
  | S fuel' =>
      await page := query client (USER_HISTORY skip account) in
      let allResults' := allResults ++ page in
      if length page <? 1000 then ret allResults'
      else userHistory_loop fuel' allResults' (skip + 1000)
  end.

Definition userHistory (fuel : nat) : Fetch user_request (list A) :=
  userHistory_loop fuel [] 0.

End UserHistory.

(** The effect of [useUserSnapshots]: the requests it sends and the state
    it leaves. A failed request is caught and logged; an array, even an
    empty one, is truthy and is stored. *)
Definition useUserSnapshots_effect (fuel : nat)
    (client : user_request -> option (list jsval))
    (state : jsval) (account : string) : Fetch user_request jsval :=
  let snapshots := read_key state account USER_SNAPSHOTS in
  if negb (truthy snapshots) && truthy_key account then
    match userHistory client account fuel with
    | (sent, Returned allResults) =>
        (sent,
         Returned (after_dispatch state
                     (updateUserSnapshots state account (array_of allResults))))
    | (sent, Threw) => (sent, Returned state)
    | (sent, OutOfFuel) => (sent, OutOfFuel)
    end
  else ([], Returned state).

(** A backend that holds the snapshots [all] of every account and serves
    them by pages of 1000. *)
Definition paged_history {A : Type} (all : list A) (q : user_request)
    : option (list A) :=
  match q with
  | USER_HISTORY skip _ => Some (firstn 1000 (skipn skip all))
  | USER_TRANSACTIONS _ => None
  end.

(** The first effect of [useUserLiquidityChart]: the start of the window
    after the effect ran. [startTime] is [utcStartTime.unix() - 1], read
    off the clock for the active window; [activeWindow] tells whether a
    window is selected. *)
Definition update_startDateTimestamp (startTime : Z) (activeWindow : bool)
    (startDateTimestamp : option Z) : option Z :=
  match startDateTimestamp with
  | None => Some startTime
  | Some s =>
      if (s =? 0)%Z || (activeWindow && (startTime <? s)%Z)
      then Some startTime
      else Some s
  end.

(** ** The utilities: comparing objects, short addresses *)

(** [a !== b] on primitive values. *)
Definition strict_neq (a b : prim) : bool :=
  match a, b with
  | PUndefined, PUndefined => false
  | PNull, PNull => false
  | PBool x, PBool y => negb (Bool.eqb x y)
  | PNum x, PNum y => negb (PrimFloat.eqb x y)
  | _, _ => true
  end.

(** [o[k]] as a value: [undefined] for a missing key (the keys compared
    name no property of [Object.prototype]). *)
Definition get_prim (o : Obj.t prim) (k : string) : prim :=
  match Obj.get o k with
  | Some v => v
  | None => PUndefined
  end.

(** [isEquivalent] on objects that hold primitive values (numbers,
    booleans, [null], [undefined]). *)
Definition isEquivalent (a b : Obj.t prim) : bool :=
  let aProps := Obj.keys a in
  let bProps := Obj.keys b in
  if negb (length aProps =? length bProps) then false
  else
    forallb (fun propName => negb (strict_neq (get_prim a propName)
                                              (get_prim b propName)))
            aProps.

(** [s.substring(start)] and [s.substring(0, end)] for indices that are
    not negative; an index beyond the string stops at its end. *)
Definition substring_from (start : nat) (s : string) : string :=
  String.substring start (String.length s - start) s.

Definition substring_to (end_ : nat) (s : string) : string :=
  String.substring 0 end_ s.

Section ShortenAddress.

(** [isAddress]: the checksummed address, [None] for the [false] it
    answers on anything that is no address. *)
Variable isAddress : string -> option string.

(** [None]: the function throws. [chars] is 4 when the caller gives
    none; [42 - chars] below 0 reads as 0 in [substring]. *)
Definition shortenAddress (address : string) (chars : nat) : option string :=
  match isAddress address with
  | Some parsed =>
      if truthy_key parsed
      then Some (substring_to (chars + 2) parsed
                 +:+ "..." +:+ substring_from (42 - chars) parsed)
      else None
  | None => None
  end.

End ShortenAddress.

(** The states the cache goes through: the initial one and those the
    reducer returns. *)
Inductive reachable : jsval -> Prop :=
  | reachable_initial : reachable INITIAL_STATE
  | reachable_step state type payload state' :
      reachable state ->
      reducer state type payload = Some state' ->
      reachable state'.

(** An object whose entries are objects, the pair returns of each, when
    there, being an object too. *)
Definition cache_shaped (state : jsval) : Prop :=
  exists accounts,
    state = JObj accounts
    /\ forall account entry,
         accounts !! account = Some entry ->
         exists keys,
           entry = JObj keys
           /\ forall returns,
                keys !! USER_PAIR_RETURNS_KEY = Some returns ->
                exists pairs, returns = JObj pairs.

(* ================================================================== *)
(** * Part II: theorems *)
(* ================================================================== *)

(** ** Doubles *)

Lemma isFinite_zero : isFinite 0 = true.
Proof. reflexivity. Qed.

(** A quotient by [+0] is never finite: it is an infinity, or [NaN]
    when the numerator is a zero or [NaN]. *)
Lemma div_zero_not_finite (x : float) : isFinite (x / 0) = false.
Proof.
  unfold isFinite, PrimFloat.is_nan, PrimFloat.is_infinity.
  rewrite !FloatAxioms.eqb_spec, FloatAxioms.abs_spec, FloatAxioms.div_spec.
  change (Prim2SF 0) with (S754_zero false).
  change (Prim2SF infinity) with (S754_infinity false).
  destruct (Prim2SF x) as [[] | [] | | [] m e]; reflexivity.
Qed.

(** The guard shared by the two percent-change functions lets only
    finite values through. *)
Lemma guard_finite (adj : float) :
  isFinite (if isNaN adj || negb (isFinite adj) then 0%float else adj) = true.
Proof.
  destruct (isNaN adj || negb (isFinite adj)) eqn:Hguard.
  - apply isFinite_zero.
  - apply orb_false_elim in Hguard as [_ Hfin].
    now apply negb_false_iff in Hfin.
Qed.

(** The guard answers the percentage itself when that is a finite
    number, and 0 when it is [NaN] or an infinity. *)
Lemma guard_exact (adj : float) :
  (if isNaN adj || negb (isFinite adj) then 0%float else adj)
  = if isFinite adj then adj else 0%float.
Proof.
  unfold isNaN, isFinite.
  destruct (PrimFloat.is_nan adj), (PrimFloat.is_infinity adj); reflexivity.
Qed.

Lemma float_eqb_zero (y : float) :
  PrimFloat.eqb y 0 = true -> exists s, Prim2SF y = S754_zero s.
Proof.
  rewrite FloatAxioms.eqb_spec. change (Prim2SF 0) with (S754_zero false).
  destruct (Prim2SF y) as [s | [] | | [] m e]; try discriminate. eauto.
Qed.

(** A percentage over a zero, of either sign, is never finite. *)
Lemma percent_of_zero_not_finite (x y : float) :
  PrimFloat.eqb y 0 = true -> isFinite (x / y * 100) = false.
Proof.
  intros Hzero. apply float_eqb_zero in Hzero as [s Hs].
  unfold isFinite, PrimFloat.is_nan, PrimFloat.is_infinity.
  rewrite !FloatAxioms.eqb_spec, FloatAxioms.abs_spec, FloatAxioms.mul_spec,
    FloatAxioms.div_spec, Hs.
  change (Prim2SF infinity) with (S754_infinity false).
  replace (Prim2SF 100) with (S754_finite false 7036874417766400 (-46))
    by reflexivity.
  destruct (Prim2SF x) as [[] | [] | | [] m e]; destruct s; reflexivity.
Qed.

Lemma getPercentChange_finite parseFloatStr valueNow value24HoursAgo :
  isFinite (getPercentChange parseFloatStr valueNow value24HoursAgo) = true.
Proof. unfold getPercentChange. apply guard_finite. Qed.

Lemma get2DayPercentChange_finite parseFloatStr valueNow v24 v48 :
  isFinite (snd (get2DayPercentChange parseFloatStr valueNow v24 v48)) = true.
Proof.
  unfold get2DayPercentChange.
  set (adj := (_ / _ * 100)%float).
  generalize (guard_finite adj).
  destruct (isNaN adj || negb (isFinite adj)); simpl; auto.
Qed.

(** ** Share values *)

Section ShareValues.

Variable parseInt : option string -> float.
Variable toFloat : option BigDecimal -> float.

Lemma shareValue_step_baseline values entry :
  roi_baseline values -> roi_baseline (shareValue_step parseInt toFloat values entry).
Proof.
  destruct entry as [row [d|]]; simpl; [|tauto].
  destruct (truthy_string _); [|tauto].
  destruct values as [|first rest]; simpl.
  - intros _. split; [reflexivity | constructor].
  - intros [H1 Hrest]. split; [exact H1|].
    apply Forall_app. split; [exact Hrest|].
    constructor; [reflexivity | constructor].
Qed.

Lemma shareValues_fold_baseline data values :
  roi_baseline values ->
  roi_baseline (fold_left (shareValue_step parseInt toFloat) data values).
Proof.
  revert values.
  induction data as [|entry data IH]; intros values Hv; simpl; [exact Hv|].
  apply IH, shareValue_step_baseline, Hv.
Qed.

Lemma shareValues_baseline data :
  roi_baseline (shareValues parseInt toFloat data).
Proof. apply shareValues_fold_baseline. exact I. Qed.

Lemma shareValues_fold_prices data values :
  map ShareValueSnapshot.sharePriceUsd
      (fold_left (shareValue_step parseInt toFloat) data values)
  = map ShareValueSnapshot.sharePriceUsd values
    ++ map (price_of toFloat) (accepted_fragments data).
Proof.
  revert values.
  induction data as [|[row [d|]] data IH]; intros values; simpl.
  - now rewrite app_nil_r.
  - rewrite IH. destruct (truthy_string _); simpl; [|reflexivity].
    now rewrite map_app, <- app_assoc.
  - apply IH.
Qed.

Lemma shareValues_prices data :
  map ShareValueSnapshot.sharePriceUsd (shareValues parseInt toFloat data)
  = map (price_of toFloat) (accepted_fragments data).
Proof. apply shareValues_fold_prices. Qed.

(** Whatever [getShareValueOverTime] returns is [shareValues] of the
    data the exchange subgraph answered with. *)
Lemma getShareValueOverTime_returned fuel blockClient client back pair ts values :
  result (getShareValueOverTime parseInt toFloat fuel blockClient client back pair ts)
  = Returned values ->
  exists blocks data,
    client (SHARE_VALUE pair blocks) = Some data
    /\ values = shareValues parseInt toFloat data.
Proof.
  unfold getShareValueOverTime, result.
  destruct (getBlocksFromTimestamps _ _ _ _ _) as [sent [blocks| |]];
    simpl; try discriminate.
  unfold query.
  destruct (client (SHARE_VALUE pair blocks)) as [data|] eqn:Hdata;
    simpl; try discriminate.
  intros [= <-]. now exists blocks, data.
Qed.

(** With a first price of [+0], no later ROI is a finite number. *)
Lemma roi_baseline_zero first rest :
  roi_baseline (first :: rest) ->
  ShareValueSnapshot.sharePriceUsd first = 0%float ->
  Forall (fun v => isFinite (ShareValueSnapshot.roiUsd v) = false) rest.
Proof.
  intros [_ Hrest] Hzero.
  eapply Forall_impl; [exact Hrest|].
  intros v Hv. simpl in Hv. rewrite Hv, Hzero. apply div_zero_not_finite.
Qed.

End ShareValues.

(** ** Claims on share values and percent changes *)

(** C3. A share-value series that [getShareValueOverTime] returns with at
    least one sample has ROI exactly 1 at its first sample, ROI
    [sharePriceUsd[i] / sharePriceUsd[0]] at every later sample, and its
    prices are, sample by sample, [reserveUSD / totalSupply] of the pair
    states the exchange subgraph answered with. *)
Theorem getShareValueOverTime_roi_baseline
    (parseInt : option string -> float) (toFloat : option BigDecimal -> float)
    (fuel : nat) (blockClient : blockClient_t) (client : shareClient_t)
    (utcSevenDaysBack : Z) (pairAddress : string)
    (timestamps : option (list Z))
    (first : ShareValueSnapshot.t) (rest : list ShareValueSnapshot.t) :
  result (getShareValueOverTime parseInt toFloat fuel blockClient client
            utcSevenDaysBack pairAddress timestamps)
  = Returned (first :: rest) ->
  ShareValueSnapshot.roiUsd first = 1%float
  /\ Forall
       (fun v =>
          ShareValueSnapshot.roiUsd v
          = (ShareValueSnapshot.sharePriceUsd v
             / ShareValueSnapshot.sharePriceUsd first)%float)
       rest
  /\ exists blocks data,
       client (SHARE_VALUE pairAddress blocks) = Some data
       /\ map ShareValueSnapshot.sharePriceUsd (first :: rest)
          = map (price_of toFloat) (accepted_fragments data).
Proof.
  intros Hrun.
  apply getShareValueOverTime_returned in Hrun as (blocks & data & Hdata & Hvalues).
  pose proof (shareValues_baseline parseInt toFloat data) as Hbase.
  rewrite <- Hvalues in Hbase. destruct Hbase as [Hfirst Hrest].
  split; [exact Hfirst|]. split; [exact Hrest|].
  exists blocks, data. split; [exact Hdata|].
  rewrite Hvalues. apply shareValues_prices.
Qed.

Lemma getShareValueOverTime_roi_baseline_witness :
  exists first second,
    result (getShareValueOverTime parseInt_digits toFloat_num 1 blockClient_two
              (shareClient_of (fragment_of 100 1000) (fragment_of 100 1500))
              0 "0xpair" (Some [1000%Z; 2000%Z]))
    = Returned [first; second]
    /\ ShareValueSnapshot.roiUsd first = 1%float
    /\ ShareValueSnapshot.roiUsd second = 1.5%float.
Proof.
  eexists. eexists. split; [reflexivity|].
  destruct
    (getShareValueOverTime_roi_baseline parseInt_digits toFloat_num 1
       blockClient_two
       (shareClient_of (fragment_of 100 1000) (fragment_of 100 1500))
       0 "0xpair" (Some [1000%Z; 2000%Z]) _ _ eq_refl) as [Hfirst [Hrest _]].
  split; [exact Hfirst|].
  inversion Hrest as [|v l Hsecond _]. exact Hsecond.
Defined.

(** C7, as the code has it. [getPercentChange] answers the percentage
    [(now - before) / before * 100] itself when that is a finite number
    and the fallback 0 when it is [NaN] or an infinity, as it is whenever
    the value of 24 hours ago is absent or a zero; [get2DayPercentChange]
    answers the change of the last 24 hours with, as its percentage, the
    adjusted percentage when that is finite and 0 when it is not, as
    whenever the change of the 24 hours before is a zero. So the
    percentages they answer are always finite: [getPercentChange(110, 100)]
    is 10 and [getPercentChange(100, 0)] is 0. The ROI of a share-value
    series is not guarded: in a series that [getShareValueOverTime]
    returns the first ROI is 1, every later one is the plain quotient of
    its price by the first price, and when that first price is 0 no later
    ROI is a finite number. *)
Theorem percent_change_guarded_roi_plain_quotient :
  (forall parseFloatStr valueNow value24HoursAgo,
      let before := parseFloat_or_0 parseFloatStr value24HoursAgo in
      let percentage :=
        ((parseFloat_or_0 parseFloatStr valueNow - before) / before * 100)%float in
      getPercentChange parseFloatStr valueNow value24HoursAgo
      = (if isFinite percentage then percentage else 0%float)
      /\ (PrimFloat.eqb before 0 = true ->
          getPercentChange parseFloatStr valueNow value24HoursAgo = 0%float)
      /\ isFinite (getPercentChange parseFloatStr valueNow value24HoursAgo)
         = true)
  /\ (forall parseFloatStr valueNow value24HoursAgo value48HoursAgo,
        let currentChange :=
          (parseFloat parseFloatStr valueNow
           - parseFloat_or_0 parseFloatStr value24HoursAgo)%float in
        let previousChange :=
          (parseFloat_or_0 parseFloatStr value24HoursAgo
           - parseFloat_or_0 parseFloatStr value48HoursAgo)%float in
        let percentage :=
          (reparse (currentChange - previousChange) / reparse previousChange
           * 100)%float in
        get2DayPercentChange parseFloatStr valueNow value24HoursAgo
          value48HoursAgo
        = (currentChange, if isFinite percentage then percentage else 0%float)
        /\ (PrimFloat.eqb previousChange 0 = true ->
            get2DayPercentChange parseFloatStr valueNow value24HoursAgo
              value48HoursAgo
            = (currentChange, 0%float))
        /\ isFinite (snd (get2DayPercentChange parseFloatStr valueNow
                            value24HoursAgo value48HoursAgo)) = true)
  /\ (forall parseFloatStr,
        getPercentChange parseFloatStr (Some (SNum 110)) (Some (SNum 100))
        = 10%float)
  /\ (forall parseFloatStr,
        getPercentChange parseFloatStr (Some (SNum 100)) (Some (SNum 0))
        = 0%float)
  /\ (forall parseInt toFloat fuel blockClient client utcSevenDaysBack
             pairAddress timestamps first rest,
        result (getShareValueOverTime parseInt toFloat fuel blockClient client
                  utcSevenDaysBack pairAddress timestamps)
        = Returned (first :: rest) ->
        ShareValueSnapshot.roiUsd first = 1%float
        /\ Forall
             (fun v =>
                ShareValueSnapshot.roiUsd v
                = (ShareValueSnapshot.sharePriceUsd v
                   / ShareValueSnapshot.sharePriceUsd first)%float)
             rest
        /\ (ShareValueSnapshot.sharePriceUsd first = 0%float ->
            Forall (fun v => isFinite (ShareValueSnapshot.roiUsd v) = false)
              rest)).
Proof.
  split; [|split; [|split; [reflexivity|split; [reflexivity|]]]].
  - intros parseFloatStr valueNow value24HoursAgo before percentage.
    split; [apply guard_exact|]. split; [|apply getPercentChange_finite].
    intros Hzero. unfold getPercentChange. fold before.
    rewrite (percent_of_zero_not_finite _ _ Hzero).
    now rewrite orb_true_r.
  - intros parseFloatStr valueNow value24HoursAgo value48HoursAgo
      currentChange previousChange percentage.
    split; [|split; [|apply get2DayPercentChange_finite]].
    + unfold get2DayPercentChange.
      fold currentChange previousChange percentage.
      unfold isNaN, isFinite.
      destruct (PrimFloat.is_nan percentage),
        (PrimFloat.is_infinity percentage); reflexivity.
    + intros Hzero. unfold get2DayPercentChange.
      fold currentChange previousChange.
      rewrite percent_of_zero_not_finite.
      * now rewrite orb_true_r.
      * unfold reparse. rewrite Hzero. reflexivity.
  - intros parseInt toFloat fuel blockClient client utcSevenDaysBack
      pairAddress timestamps first rest Hrun.
    apply getShareValueOverTime_returned in Hrun as (blocks & data & _ & Hvalues).
    pose proof (shareValues_baseline parseInt toFloat data) as Hbase.
    rewrite <- Hvalues in Hbase.
    split; [exact (proj1 Hbase)|]. split; [exact (proj2 Hbase)|].
    intros Hzero. now apply (roi_baseline_zero first).
Qed.

Lemma percent_change_guarded_roi_plain_quotient_witness :
  exists first rest,
    result (getShareValueOverTime parseInt_digits toFloat_num 1 blockClient_two
              (shareClient_of (fragment_of 100 0) (fragment_of 100 50))
              0 "0xpair" (Some [1000%Z; 2000%Z]))
    = Returned (first :: rest)
    /\ ShareValueSnapshot.roiUsd first = 1%float
    /\ ShareValueSnapshot.sharePriceUsd first = 0%float
    /\ Forall (fun v => isFinite (ShareValueSnapshot.roiUsd v) = false) rest.
Proof.
  destruct percent_change_guarded_roi_plain_quotient as (_ & _ & _ & _ & Hroi).
  eexists. eexists. split; [reflexivity|].
  destruct (Hroi parseInt_digits toFloat_num 1 blockClient_two
              (shareClient_of (fragment_of 100 0) (fragment_of 100 50))
              0%Z "0xpair"%string (Some [1000%Z; 2000%Z]) _ _ eq_refl)
    as (Hfirst & _ & Hzero).
  split; [exact Hfirst|]. split; [reflexivity|]. exact (Hzero eq_refl).
Defined.

(** C7 fails as stated: a series whose first sample has share price 0
    (no USD reserve) gives its second sample the ROI [Infinity], and one
    whose first sample has total supply 0 (and no reserve) gives it [NaN]. *)
Lemma roiUsd_not_coerced :
  (exists first second,
      result (getShareValueOverTime parseInt_digits toFloat_num 1 blockClient_two
                (shareClient_of (fragment_of 100 0) (fragment_of 100 50))
                0 "0xpair" (Some [1000%Z; 2000%Z]))
      = Returned [first; second]
      /\ ShareValueSnapshot.sharePriceUsd first = 0%float
      /\ ShareValueSnapshot.roiUsd second = infinity
      /\ isFinite (ShareValueSnapshot.roiUsd second) = false)
  /\ (exists first second,
        result (getShareValueOverTime parseInt_digits toFloat_num 1 blockClient_two
                  (shareClient_of (fragment_of 0 0) (fragment_of 100 50))
                  0 "0xpair" (Some [1000%Z; 2000%Z]))
        = Returned [first; second]
        /\ ShareValueSnapshot.roiUsd second = nan
        /\ isNaN (ShareValueSnapshot.roiUsd second) = true).
Proof.
  split.
  - eexists. eexists. split; [reflexivity|]. repeat split.
  - eexists. eexists. split; [reflexivity|]. repeat split.
Qed.

(** C8. [get2DayPercentChange(300, 200, 100)]: both changes are 100, the
    adjusted percent change [((100 - 100) / 100) * 100] is 0, and the
    function returns the pair [100, 0]. *)
Theorem get2DayPercentChange_300_200_100 (parseFloatStr : string -> float) :
  (parseFloat parseFloatStr (SNum 300)
   - parseFloat_or_0 parseFloatStr (Some (SNum 200)))%float = 100%float
  /\ (parseFloat_or_0 parseFloatStr (Some (SNum 200))
      - parseFloat_or_0 parseFloatStr (Some (SNum 100)))%float = 100%float
  /\ (reparse (100 - 100) / reparse 100 * 100)%float = 0%float
  /\ get2DayPercentChange parseFloatStr (SNum 300) (Some (SNum 200))
       (Some (SNum 100))
     = (100%float, 0%float).
Proof. repeat split; reflexivity. Qed.

(** C9. On the empty list of timestamps [getBlocksFromTimestamps] returns
    the empty result at once: no request goes out, whatever the backend,
    the page size and the fuel. *)
Theorem getBlocksFromTimestamps_empty
    (parseInt : option string -> float) (fuel : nat)
    (blockClient : blockClient_t) (skipCount : nat) :
  requests (getBlocksFromTimestamps parseInt fuel blockClient (Some []) skipCount)
  = []
  /\ result (getBlocksFromTimestamps parseInt fuel blockClient (Some []) skipCount)
     = Returned [].
Proof. split; reflexivity. Qed.

(** ** The cache reducer *)

Lemma set_account_key_other state account key value other :
  other <> account ->
  spread (set_account_key state account key value) !! other
  = spread state !! other.
Proof. intros Hne. simpl. now rewrite lookup_insert_ne. Qed.

Lemma set_account_key_account state account key value :
  prop (set_account_key state account key value) account
  = JObj (<[key := value]> (spread (prop state account))).
Proof. unfold prop at 1. simpl. now rewrite lookup_insert_eq. Qed.

Lemma set_account_key_frame state account key value other_key :
  other_key <> key ->
  spread (prop (set_account_key state account key value) account) !! other_key
  = spread (prop state account) !! other_key.
Proof.
  intros Hne. rewrite set_account_key_account. simpl.
  now rewrite lookup_insert_ne.
Qed.

(** The reducer writes one key of one account, or throws. *)
Lemma reducer_writes state type payload state' :
  reducer state type payload = Some state' ->
  exists key value,
    written_key type = Some key
    /\ state' = set_account_key state (Payload.account payload) key value
    /\ (type = UPDATE_USER_PAIR_RETURNS ->
        key = USER_PAIR_RETURNS_KEY
        /\ value
           = JObj (<[Payload.pairAddress payload := Payload.data payload]>
                     (spread (prop (prop state (Payload.account payload))
                                   USER_PAIR_RETURNS_KEY)))).
Proof.
  unfold reducer, written_key.
  destruct (String.eqb type UPDATE_TRANSACTIONS) eqn:E1.
  { apply String.eqb_eq in E1. intros [= <-]. eexists _, _.
    repeat split; try reflexivity; subst type; discriminate. }
  destruct (String.eqb type UPDATE_POSITIONS) eqn:E2.
  { apply String.eqb_eq in E2. intros [= <-]. eexists _, _.
    repeat split; try reflexivity; subst type; discriminate. }
  destruct (String.eqb type UPDATE_MINING_POSITIONS) eqn:E3.
  { apply String.eqb_eq in E3. intros [= <-]. eexists _, _.
    repeat split; try reflexivity; subst type; discriminate. }
  destruct (String.eqb type UPDATE_USER_POSITION_HISTORY) eqn:E4.
  { apply String.eqb_eq in E4. intros [= <-]. eexists _, _.
    repeat split; try reflexivity; subst type; discriminate. }
  destruct (String.eqb type UPDATE_USER_PAIR_RETURNS) eqn:E5; [|discriminate].
  intros [= <-]. eexists _, _. repeat split; reflexivity.
Qed.

(** C10. Whenever the reducer accepts an action, every account other than
    [payload.account] keeps exactly its entry, every key of
    [payload.account]'s entry other than the one the action writes keeps
    its value and, for a pair-returns update, so does every other
    [pairAddress] of the account's pair returns. *)
Theorem reducer_frame (state : jsval) (type : string) (payload : Payload.t)
    (state' : jsval) :
  reducer state type payload = Some state' ->
  (forall other : string,
      other <> Payload.account payload ->
      spread state' !! other = spread state !! other)
  /\ (forall key : string,
        written_key type <> Some key ->
        spread (prop state' (Payload.account payload)) !! key
        = spread (prop state (Payload.account payload)) !! key)
  /\ (type = UPDATE_USER_PAIR_RETURNS ->
      forall pair : string,
        pair <> Payload.pairAddress payload ->
        spread (prop (prop state' (Payload.account payload))
                     USER_PAIR_RETURNS_KEY) !! pair
        = spread (prop (prop state (Payload.account payload))
                       USER_PAIR_RETURNS_KEY) !! pair).
Proof.
  intros Hstep.
  apply reducer_writes in Hstep as (key & value & Hkey & -> & Hpair).
  split; [|split].
  - intros other Hne. now apply set_account_key_other.
  - intros k Hk. apply set_account_key_frame. congruence.
  - intros Htype pair Hne. destruct (Hpair Htype) as [-> ->].
    rewrite set_account_key_account. unfold prop at 1. simpl.
    rewrite lookup_insert_eq. simpl. now rewrite lookup_insert_ne.
Qed.

Lemma reducer_frame_witness :
  exists state',
    reducer example_state UPDATE_USER_PAIR_RETURNS example_payload = Some state'
    /\ spread state' !! "0xb"%string = spread example_state !! "0xb"%string
    /\ spread (prop state' "0xa") !! POSITIONS_KEY
       = spread (prop example_state "0xa") !! POSITIONS_KEY
    /\ spread (prop (prop state' "0xa") USER_PAIR_RETURNS_KEY) !! "0xp1"%string
       = spread (prop (prop example_state "0xa") USER_PAIR_RETURNS_KEY)
           !! "0xp1"%string.
Proof.
  eexists. split; [reflexivity|].
  destruct (reducer_frame example_state UPDATE_USER_PAIR_RETURNS
              example_payload _ eq_refl) as (Hother & Hkey & Hpair).
  split; [apply Hother; discriminate|].
  split; [apply Hkey; discriminate|].
  apply (Hpair eq_refl). discriminate.
Defined.

(** ** Paginated queries *)

Lemma slice_length {A : Type} (l : list A) (start end_ : nat) :
  length (slice l start end_) = Nat.min (end_ - start) (length l - start).
Proof. unfold slice. now rewrite length_firstn, length_skipn. Qed.

Section SplitQueryFacts.

Context {A V R : Type}.
Variable query_of : list A -> R.
Variable localClient : R -> option (Obj.t V).

(** With a backend that answers in full and a positive page size, the
    loop entered at [skip] sends [(n - skip) / p + 1] requests and
    returns, given that much fuel. *)
Lemma splitQuery_loop_full_pages fuel list skipCount fetchedData skip :
  answers_in_full query_of localClient ->
  0 < skipCount ->
  skip <= length list ->
  (length list - skip) / skipCount < fuel ->
  length (requests (splitQuery_loop query_of localClient fuel list skipCount
                      fetchedData skip))
  = (length list - skip) / skipCount + 1
  /\ exists out,
       result (splitQuery_loop query_of localClient fuel list skipCount
                 fetchedData skip) = Returned out.
Proof.
  intros Hfull Hpos.
  revert fetchedData skip.
  induction fuel as [|fuel IH]; intros fetchedData skip Hskip Hfuel; [lia|].
  cbn [splitQuery_loop].
  set (end_ := if skip + skipCount <? length list then skip + skipCount
               else length list).
  destruct (Hfull (slice list skip end_)) as (data & Hdata & Hkeys).
  unfold query. rewrite Hdata. cbn [bind].
  rewrite Hkeys, slice_length.
  destruct (Nat.lt_ge_cases (length list - skip) skipCount) as [Hshort | Hlong].
  - (* the window reaches the end of the list before it is full *)
    assert (Hend : end_ = length list).
    { unfold end_. destruct (Nat.ltb_spec (skip + skipCount) (length list)); lia. }
    rewrite Hend.
    replace (Nat.min (length list - skip) (length list - skip) <? skipCount)
      with true by (symmetry; apply Nat.ltb_lt; lia).
    cbn. rewrite Nat.div_small by lia. split; [reflexivity | eauto].
  - (* a full window: the loop goes on *)
    assert (Hend : end_ = skip + skipCount).
    { unfold end_. destruct (Nat.ltb_spec (skip + skipCount) (length list)); lia. }
    rewrite Hend.
    replace (Nat.min (skip + skipCount - skip) (length list - skip) <? skipCount)
      with false by (symmetry; apply Nat.ltb_ge; lia).
    replace (length list <? skip + skipCount)
      with false by (symmetry; apply Nat.ltb_ge; lia).
    cbn [orb].
    assert (Hdiv : (length list - skip) / skipCount
                   = (length list - (skip + skipCount)) / skipCount + 1).
    { replace (length list - skip)
        with ((length list - (skip + skipCount)) + 1 * skipCount) by lia.
      rewrite Nat.div_add by lia. reflexivity. }
    destruct (IH (Obj.assign fetchedData data) (skip + skipCount))
      as [Hcount [out Hout]]; [lia | lia |].
    unfold requests, result in *.
    destruct (splitQuery_loop query_of localClient fuel list skipCount
                (Obj.assign fetchedData data) (skip + skipCount))
      as [sent o].
    cbn in *. split; [|eauto]. rewrite Hdiv. lia.
Qed.

(** The number of requests with a backend that answers in full. *)
Lemma splitQuery_full_pages fuel list skipCount :
  answers_in_full query_of localClient ->
  0 < skipCount ->
  length list / skipCount < fuel ->
  length (requests (splitQuery query_of localClient fuel list skipCount))
  = length list / skipCount + 1.
Proof.
  intros Hfull Hpos Hfuel. unfold splitQuery.
  destruct (splitQuery_loop_full_pages fuel list skipCount Obj.empty 0)
    as [Hcount _]; try assumption; try lia.
  - now rewrite Nat.sub_0_r.
  - now rewrite Nat.sub_0_r in Hcount.
Qed.

(** With page size 0 the loop never ends by itself: whatever the fuel,
    it runs out of it, unless a request fails. *)
Lemma splitQuery_loop_page_size_0 fuel list fetchedData skip out :
  skip <= length list ->
  result (splitQuery_loop query_of localClient fuel list 0 fetchedData skip)
  <> Returned out.
Proof.
  intros Hskip. revert fetchedData.
  induction fuel as [|fuel IH]; intros fetchedData; [discriminate|].
  cbn [splitQuery_loop]. unfold query.
  destruct (localClient _) as [data|]; cbn [bind]; [|discriminate].
  rewrite Nat.add_0_r.
  replace (length (Obj.keys data) <? 0) with false
    by (symmetry; apply Nat.ltb_ge; lia).
  replace (length list <? skip) with false
    by (symmetry; apply Nat.ltb_ge; lia).
  cbn [orb].
  specialize (IH (Obj.assign fetchedData data)).
  unfold result in *.
  destruct (splitQuery_loop query_of localClient fuel list 0
              (Obj.assign fetchedData data) skip) as [sent o].
  exact IH.
Qed.

(** Whatever the backend answers, the loop entered at [skip] sends at
    most [(n - skip) / p + 1] requests: a short page only ends it sooner. *)
Lemma splitQuery_loop_requests_le fuel list skipCount fetchedData skip :
  0 < skipCount ->
  skip <= length list ->
  length (requests (splitQuery_loop query_of localClient fuel list skipCount
                      fetchedData skip))
  <= (length list - skip) / skipCount + 1.
Proof.
  intros Hpos. revert fetchedData skip.
  induction fuel as [|fuel IH]; intros fetchedData skip Hskip; [cbn; lia|].
  cbn [splitQuery_loop]. unfold query.
  destruct (localClient _) as [data|]; cbn [bind]; [|cbn; lia].
  destruct (_ || _) eqn:Hstop; [cbn; lia|].
  apply orb_false_elim in Hstop as [_ Hlen]. apply Nat.ltb_ge in Hlen.
  specialize (IH (Obj.assign fetchedData data) (skip + skipCount) Hlen).
  unfold requests in *.
  destruct (splitQuery_loop query_of localClient fuel list skipCount
              (Obj.assign fetchedData data) (skip + skipCount)) as [sent o].
  cbn in *.
  replace (length list - skip)
    with ((length list - (skip + skipCount)) + 1 * skipCount) by lia.
  rewrite Nat.div_add by lia. lia.
Qed.

(** The slices requested are consecutive windows of the list: put end to
    end they are a prefix of what follows [skip], so no position of the
    list is requested twice. *)
Lemma splitQuery_loop_slices fuel list skipCount fetchedData skip :
  exists slices,
    requests (splitQuery_loop query_of localClient fuel list skipCount
                fetchedData skip)
    = map query_of slices
    /\ concat slices = firstn (length (concat slices)) (skipn skip list).
Proof.
  revert fetchedData skip.
  induction fuel as [|fuel IH]; intros fetchedData skip.
  { exists []. split; reflexivity. }
  cbn [splitQuery_loop].
  set (end_ := if skip + skipCount <? length list then skip + skipCount
               else length list).
  assert (Hone : exists slices,
             [query_of (slice list skip end_)] = map query_of slices
             /\ concat slices
                = firstn (length (concat slices)) (skipn skip list)).
  { exists [slice list skip end_]. split; [reflexivity|].
    cbn. rewrite app_nil_r. unfold slice.
    rewrite length_firstn.
    destruct (Nat.le_ge_cases (end_ - skip) (length (skipn skip list))).
    - now rewrite Nat.min_l.
    - rewrite Nat.min_r by assumption.
      now rewrite firstn_all, firstn_all2. }
  unfold query.
  destruct (localClient _) as [data|]; cbn [bind]; [|exact Hone].
  destruct (_ || _) eqn:Hstop; [exact Hone|].
  apply orb_false_elim in Hstop as [_ Hlen]. apply Nat.ltb_ge in Hlen.
  destruct (IH (Obj.assign fetchedData data) (skip + skipCount))
    as (rest & Hsent & Hrest).
  unfold requests in *.
  destruct (splitQuery_loop query_of localClient fuel list skipCount
              (Obj.assign fetchedData data) (skip + skipCount)) as [sent o].
  cbn in Hsent. cbn. subst sent.
  exists (slice list skip end_ :: rest). split; [reflexivity|].
  assert (Hend : end_ = skip + skipCount).
  { unfold end_. destruct (Nat.ltb_spec (skip + skipCount) (length list)); lia. }
  assert (Hfull : length (slice list skip end_) = skipCount).
  { rewrite slice_length, Hend. lia. }
  cbn [concat]. rewrite length_app, Hfull, Hrest at 1.
  unfold slice. rewrite Hend.
  replace (skip + skipCount - skip) with skipCount by lia.
  rewrite <- drop_drop. apply take_take_drop.
Qed.

End SplitQueryFacts.

(** C1 fails on the code when the page size divides the length of the
    list. A list of two items with page size 2 and a backend that answers
    in full: the first request takes the whole list, its page is full and
    [skip + skipCount > list.length] is false, so a second request goes
    out for the empty slice; [ceil(2 / 2)] is 1. *)
Theorem splitQuery_exact_multiple_extra_request :
  requests (splitQuery (fun sliced => sliced) full_pages 3
              ["a"; "b"]%string 2)
  = [["a"; "b"]%string; []]
  /\ result (splitQuery (fun sliced => sliced) full_pages 3
               ["a"; "b"]%string 2)
     = Returned [("a"%string, tt); ("b"%string, tt)]
  /\ ceil_div 2 2 = 1.
Proof. repeat split. Qed.

(** ** The daily liquidity chart: the days *)

Lemma insert_snapshot_head a sorted :
  exists first rest,
    insert_snapshot a sorted = first :: rest
    /\ (first = a \/ exists tl, sorted = first :: tl)
    /\ (Snapshot.timestamp first <= Snapshot.timestamp a)%Z.
Proof.
  destruct sorted as [|b rest]; cbn.
  - exists a, []. split; [reflexivity|]. split; [now left | lia].
  - unfold compare_snapshots.
    destruct (Z.gtb_spec (Snapshot.timestamp a) (Snapshot.timestamp b)); cbn.
    + eexists _, _. split; [reflexivity|]. split; [right; eauto | lia].
    + eexists _, _. split; [reflexivity|]. split; [now left | lia].
Qed.

(** Element 0 of the sorted snapshots is a snapshot of the history with
    the least timestamp. *)
Lemma sort_snapshots_head history :
  history <> [] ->
  exists first rest,
    sort_snapshots history = first :: rest
    /\ In first history
    /\ Forall (fun s => (Snapshot.timestamp first <= Snapshot.timestamp s)%Z)
         history.
Proof.
  induction history as [|a history IH]; [congruence|]. intros _.
  unfold sort_snapshots. cbn [fold_right].
  fold (sort_snapshots history).
  destruct (insert_snapshot_head a (sort_snapshots history))
    as (first & rest & Hins & Hfrom & Hle).
  exists first, rest. split; [exact Hins|].
  destruct history as [|b history].
  - cbn in Hins. injection Hins as <- <-.
    split; [now left|]. constructor; [lia | constructor].
  - destruct IH as (first' & rest' & Hsorted & Hin & Hmin); [congruence|].
    destruct Hfrom as [-> | [tl Htl]].
    + split; [now left|]. constructor; [lia|].
      rewrite Hsorted in Hins. cbn in Hins. unfold compare_snapshots in Hins.
      destruct (Z.gtb_spec (Snapshot.timestamp a) (Snapshot.timestamp first'));
        cbn in Hins.
      * injection Hins as -> _. lia.
      * eapply Forall_impl; [exact Hmin|]. cbn. intros s Hs. lia.
    + rewrite Hsorted in Htl. injection Htl as <- _.
      split; [now right|]. constructor; [exact Hle | exact Hmin].
Qed.

Lemma days_from_bound dayIndex n :
  Forall (fun day => (day < (dayIndex + Z.of_nat n) * 86400)%Z)
    (days_from dayIndex n).
Proof.
  revert dayIndex.
  induction n as [|n IH]; intros dayIndex; cbn [days_from]; constructor.
  - lia.
  - eapply Forall_impl; [apply IH|]. cbn. intros day Hday. lia.
Qed.

Lemma dayTimestamps_of_bound dayIndex currentDayIndex :
  Forall (fun day => (day < currentDayIndex * 86400)%Z)
    (dayTimestamps_of dayIndex currentDayIndex).
Proof.
  unfold dayTimestamps_of.
  destruct (Z.le_gt_cases currentDayIndex dayIndex) as [Hle | Hgt].
  - replace (Z.to_nat (currentDayIndex - dayIndex)) with O by lia. constructor.
  - eapply Forall_impl; [apply days_from_bound|]. cbn. intros day Hday. lia.
Qed.

Section ChartDays.

Variable parseFloatStr : string -> float.

(** One entry per day, in order, after what was there. *)
Lemma run_days_dates history pairDayDatas dayTimestamps state :
  map ChartEntry.date
      (snd (fold_left (day_step parseFloatStr history pairDayDatas)
              dayTimestamps state))
  = map ChartEntry.date (snd state) ++ dayTimestamps.
Proof.
  revert state.
  induction dayTimestamps as [|day days IH]; intros [own acc]; cbn [fold_left].
  - now rewrite app_nil_r.
  - rewrite IH. cbn. now rewrite map_app, <- app_assoc.
Qed.

(** What [fetchData] returns has one entry per day from the start day to
    the day before the current one. *)
Lemma fetchData_dates client now history startDateTimestamp entries :
  result (fetchData parseFloatStr client now history startDateTimestamp)
  = Returned entries ->
  exists dayIndex,
    start_dayIndex startDateTimestamp (sort_snapshots history) = Some dayIndex
    /\ map ChartEntry.date entries
       = dayTimestamps_of dayIndex (Z.quot now 86400).
Proof.
  unfold fetchData, result.
  destruct (start_dayIndex _ _) as [dayIndex|]; [|discriminate].
  unfold query. destruct (client _) as [pairDayDatas|]; cbn; [|discriminate].
  intros [= <-]. exists dayIndex. split; [reflexivity|].
  unfold run_days. now rewrite run_days_dates.
Qed.

End ChartDays.

(** When the first snapshot falls on a later day than the window start,
    the iteration starts on the snapshot's day, after the window start. *)
Lemma start_dayIndex_moved_later startDateTimestamp first rest :
  (0 < startDateTimestamp)%Z ->
  (startDateTimestamp / 86400 < Snapshot.timestamp first / 86400)%Z ->
  start_dayIndex (Some startDateTimestamp) (first :: rest)
  = Some (Snapshot.timestamp first / 86400)%Z.
Proof.
  intros Hpos Hlater. unfold start_dayIndex.
  replace (startDateTimestamp =? 0)%Z with false
    by (symmetry; apply Z.eqb_neq; lia).
  assert (0 <= startDateTimestamp / 86400)%Z by (apply Z.div_pos; lia).
  assert (Hts : (86400 * (Snapshot.timestamp first / 86400)
                 <= Snapshot.timestamp first)%Z)
    by (apply Z.mul_div_le; lia).
  replace (Snapshot.timestamp first >? startDateTimestamp / 86400)%Z with true
    by (symmetry; apply Z.gtb_lt; lia).
  rewrite Z.quot_div_nonneg by lia. reflexivity.
Qed.

(** C2 fails on the code. The window starts on day 10 and the only
    snapshot is on day 20 (now is day 23): the series should start on day
    10, the earlier of the two, and the code starts it on day 20. The test
    compares the snapshot's time in seconds with the window's day index,
    so it holds for any real timestamp and the start day always becomes
    the day of the first snapshot. *)
Theorem useUserLiquidityChart_starts_after_window :
  useUserLiquidityChart parseFloatStr_nan (dayClient_of [])
    (23 * 86400 + 5)%Z
    (Some [snapshot_A (20 * 86400 + 7) 10]) (Some (10 * 86400)%Z)
  = Some ([PAIR_DAY_DATA_BULK ["A"%string] (Some (10 * 86400)%Z)],
          Returned [ ChartEntry.mk (20 * 86400)%Z 0%float;
                     ChartEntry.mk (21 * 86400)%Z 0%float;
                     ChartEntry.mk (22 * 86400)%Z 0%float ])
  /\ (Z.min (10 * 86400 / 86400) ((20 * 86400 + 7) / 86400) = 10)%Z.
Proof. split; reflexivity. Qed.

(** C6. Every entry of the daily series has a date strictly before the
    start of the current day, [floor(now / 86400) * 86400], for any
    current time [now] of the Unix era: the day still running is never in
    the series. *)
Theorem useUserLiquidityChart_excludes_current_day
    (parseFloatStr : string -> float) (client : dayClient_t) (now : Z)
    (history : option (list Snapshot.t)) (startDateTimestamp : option Z)
    (run : Fetch request (list ChartEntry.t)) (entries : list ChartEntry.t) :
  (0 <= now)%Z ->
  useUserLiquidityChart parseFloatStr client now history startDateTimestamp
  = Some run ->
  result run = Returned entries ->
  Forall (fun entry => (ChartEntry.date entry < now / 86400 * 86400)%Z) entries.
Proof.
  intros Hnow Hrun Hentries.
  unfold useUserLiquidityChart in Hrun.
  destruct history as [h|]; [|discriminate].
  destruct startDateTimestamp as [s|]; [|discriminate].
  destruct (_ && _); [|discriminate].
  injection Hrun as <-.
  apply fetchData_dates in Hentries as (dayIndex & _ & Hdates).
  apply List.Forall_map with (f := ChartEntry.date)
                             (P := fun day => (day < now / 86400 * 86400)%Z).
  rewrite Hdates, Z.quot_div_nonneg by lia.
  apply dayTimestamps_of_bound.
Qed.

Lemma useUserLiquidityChart_excludes_current_day_witness :
  Forall (fun entry => (ChartEntry.date entry < 2 * 86400)%Z)
    [ ChartEntry.mk 0 150%float; ChartEntry.mk 86400 150%float ].
Proof.
  apply (useUserLiquidityChart_excludes_current_day parseFloatStr_nan
           (dayClient_of [dayData_A 0 100 1000]) (2 * 86400 + 5)%Z
           (Some [snapshot_A 100 10; snapshot_A 200 15]) (Some 50%Z)
           ([PAIR_DAY_DATA_BULK ["A"%string; "A"%string] (Some 50%Z)],
            Returned [ ChartEntry.mk 0 150%float; ChartEntry.mk 86400 150%float ])).
  - lia.
  - reflexivity.
  - reflexivity.
Defined.

(** ** The daily liquidity chart: the record that values a pool *)

Section MostRecent.

Variable dayTimestamp : Z.

Local Abbreviation scan := (mostRecent_step dayTimestamp).

(** A candidate dated on or after the day bucket is never replaced. *)
Lemma scan_keeps_late_candidate dayDatas mostRecent :
  (dayTimestamp <= PairDayData.date mostRecent)%Z ->
  fold_left scan dayDatas mostRecent = mostRecent.
Proof.
  intros Hlate.
  induction dayDatas as [|dayData dayDatas IH]; cbn [fold_left]; [reflexivity|].
  unfold mostRecent_step at 2.
  destruct (Z.ltb_spec (PairDayData.date dayData) dayTimestamp) as [Hlt|];
    cbn [andb]; [|exact IH].
  destruct (Z.gtb_spec (PairDayData.date dayData) (PairDayData.date mostRecent));
    [lia | exact IH].
Qed.

(** From a candidate dated before the day bucket, the scan ends on a
    record dated before it and at least as late as the candidate and as
    every scanned record dated before the bucket. *)
Lemma scan_from_early_candidate dayDatas mostRecent :
  (PairDayData.date mostRecent < dayTimestamp)%Z ->
  let found := fold_left scan dayDatas mostRecent in
  (found = mostRecent \/ In found dayDatas)
  /\ (PairDayData.date found < dayTimestamp)%Z
  /\ (PairDayData.date mostRecent <= PairDayData.date found)%Z
  /\ Forall
       (fun dayData =>
          (PairDayData.date dayData < dayTimestamp)%Z ->
          (PairDayData.date dayData <= PairDayData.date found)%Z)
       dayDatas.
Proof.
  revert mostRecent.
  induction dayDatas as [|dayData dayDatas IH]; intros mostRecent Hearly;
    cbn [fold_left].
  - repeat split; [now left | exact Hearly | lia | constructor].
  - assert (Hstep : (PairDayData.date (scan mostRecent dayData) < dayTimestamp)%Z
                    /\ (PairDayData.date mostRecent
                        <= PairDayData.date (scan mostRecent dayData))%Z
                    /\ ((PairDayData.date dayData < dayTimestamp)%Z ->
                        (PairDayData.date dayData
                         <= PairDayData.date (scan mostRecent dayData))%Z)
                    /\ (scan mostRecent dayData = mostRecent
                        \/ scan mostRecent dayData = dayData)).
    { unfold mostRecent_step.
      destruct (Z.ltb_spec (PairDayData.date dayData) dayTimestamp);
        destruct (Z.gtb_spec (PairDayData.date dayData)
                    (PairDayData.date mostRecent));
        cbn [andb]; repeat split; auto; lia. }
    destruct Hstep as (Hearly' & Hle & Hthis & Hwhich).
    destruct (IH (scan mostRecent dayData) Hearly')
      as (Hfrom & Hbefore & Hge & Hall).
    repeat split.
    + destruct Hfrom as [-> | Hin]; [|right; now right].
      destruct Hwhich as [-> | ->]; [now left | right; now left].
    + exact Hbefore.
    + lia.
    + constructor; [intros Hd; specialize (Hthis Hd); lia | exact Hall].
Qed.

(** From a candidate dated before the day bucket, the scan stays on the
    candidate or ends on a later record that comes before every other
    record as late. *)
Lemma scan_first_of_latest dayDatas mostRecent :
  (PairDayData.date mostRecent < dayTimestamp)%Z ->
  fold_left scan dayDatas mostRecent = mostRecent
  \/ exists earlier later,
       dayDatas = earlier ++ fold_left scan dayDatas mostRecent :: later
       /\ (PairDayData.date mostRecent
           < PairDayData.date (fold_left scan dayDatas mostRecent))%Z
       /\ Forall
            (fun dayData =>
               (PairDayData.date dayData < dayTimestamp)%Z ->
               (PairDayData.date dayData
                < PairDayData.date (fold_left scan dayDatas mostRecent))%Z)
            earlier.
Proof.
  revert mostRecent.
  induction dayDatas as [|dayData dayDatas IH]; intros mostRecent Hearly;
    cbn [fold_left]; [now left|].
  assert (Hstep : (scan mostRecent dayData = dayData
                   /\ (PairDayData.date dayData < dayTimestamp)%Z
                   /\ (PairDayData.date mostRecent
                       < PairDayData.date dayData)%Z)
                  \/ (scan mostRecent dayData = mostRecent
                      /\ ((PairDayData.date dayData < dayTimestamp)%Z ->
                          (PairDayData.date dayData
                           <= PairDayData.date mostRecent)%Z))).
  { unfold mostRecent_step.
    destruct (Z.ltb_spec (PairDayData.date dayData) dayTimestamp);
      destruct (Z.gtb_spec (PairDayData.date dayData)
                  (PairDayData.date mostRecent));
      cbn [andb]; [left | right | right | right]; repeat split; auto; lia. }
  destruct Hstep as [(-> & Hbefore & Hlater) | (-> & Hnot)].
  - right. destruct (IH dayData Hbefore) as [Hstay | (earlier & later & Hsplit & Hlt & Hall)].
    + exists [], dayDatas. rewrite Hstay.
      split; [reflexivity|]. split; [exact Hlater | constructor].
    + exists (dayData :: earlier), later.
      split; [cbn [app]; now rewrite <- Hsplit|].
      split; [lia|]. constructor; [intros _; exact Hlt | exact Hall].
  - destruct (IH mostRecent Hearly) as [Hstay | (earlier & later & Hsplit & Hlt & Hall)];
      [now left|].
    right. exists (dayData :: earlier), later.
    split; [cbn [app]; now rewrite <- Hsplit|].
    split; [exact Hlt|].
    constructor; [intros Hd; specialize (Hnot Hd); lia | exact Hall].
Qed.

(** The record [mostRecent_of] finds: the first one if it is dated on or
    after the day bucket, else one with the largest date before it. *)
Lemma mostRecent_of_found first rest :
  exists found,
    mostRecent_of dayTimestamp (first :: rest) = Some found
    /\ In found (first :: rest)
    /\ if (PairDayData.date first <? dayTimestamp)%Z
       then (PairDayData.date found < dayTimestamp)%Z
            /\ Forall
                 (fun dayData =>
                    (PairDayData.date dayData < dayTimestamp)%Z ->
                    (PairDayData.date dayData <= PairDayData.date found)%Z)
                 (first :: rest)
       else found = first.
Proof.
  eexists. split; [reflexivity|].
  destruct (Z.ltb_spec (PairDayData.date first) dayTimestamp) as [Hearly | Hlate].
  - destruct (scan_from_early_candidate (first :: rest) first Hearly)
      as (Hfrom & Hbefore & _ & Hall).
    split; [|split; assumption].
    destruct Hfrom as [-> | Hin]; [now left | exact Hin].
  - rewrite scan_keeps_late_candidate by exact Hlate.
    split; [now left | reflexivity].
Qed.

End MostRecent.

Lemma dayDatasForThisPair_of_In pairDayDatas pairAddress dayData :
  In dayData (dayDatasForThisPair_of pairDayDatas pairAddress)
  <-> In dayData pairDayDatas /\ PairDayData.pairAddress dayData = pairAddress.
Proof.
  unfold dayDatasForThisPair_of. rewrite filter_In, String.eqb_eq. reflexivity.
Qed.

(** The scan on its own. It starts from the pool's first listed record,
    whatever its date, and moves to a record only if that one is dated
    strictly before the day bucket and strictly after the current one. So
    when the first listed record is dated strictly before the bucket, the
    scan ends on a record of the largest date below the threshold; when it
    is not, it ends on that first record. A pool with no record at all
    adds nothing to the day's sum. *)
Lemma mostRecent_of_first_or_latest_before
    (parseFloatStr : string -> float) (ownershipPerPair : Obj.t Ownership.t)
    (pairDayDatas : list PairDayData.t) (dayTimestamp : Z)
    (pairAddress : string) :
  match dayDatasForThisPair_of pairDayDatas pairAddress with
  | [] =>
      forall totalUSD,
        add_dayData parseFloatStr ownershipPerPair totalUSD
          (mostRecent_of dayTimestamp
             (dayDatasForThisPair_of pairDayDatas pairAddress))
        = totalUSD
  | first :: _ =>
      exists found,
        mostRecent_of dayTimestamp
          (dayDatasForThisPair_of pairDayDatas pairAddress) = Some found
        /\ In found pairDayDatas
        /\ PairDayData.pairAddress found = pairAddress
        /\ if (PairDayData.date first <? dayTimestamp)%Z
           then (PairDayData.date found < dayTimestamp)%Z
                /\ forall dayData,
                     In dayData pairDayDatas ->
                     PairDayData.pairAddress dayData = pairAddress ->
                     (PairDayData.date dayData < dayTimestamp)%Z ->
                     (PairDayData.date dayData <= PairDayData.date found)%Z
           else found = first
  end.
Proof.
  destruct (dayDatasForThisPair_of pairDayDatas pairAddress)
    as [|first rest] eqn:Hrecs.
  - reflexivity.
  - destruct (mostRecent_of_found dayTimestamp first rest)
      as (found & Hfound & Hin & Hwhich).
    exists found. split; [exact Hfound|].
    rewrite <- Hrecs in Hin. apply dayDatasForThisPair_of_In in Hin as [Hin Hpair].
    split; [exact Hin|]. split; [exact Hpair|].
    destruct (PairDayData.date first <? dayTimestamp)%Z; [|exact Hwhich].
    destruct Hwhich as [Hbefore Hall]. split; [exact Hbefore|].
    intros dayData Hd Hp. rewrite Forall_forall in Hall. apply Hall.
    rewrite <- Hrecs. apply list_elem_of_In, dayDatasForThisPair_of_In. now split.
Qed.

(** C4 fails as stated. Pool [A] has balance 10 from day 2 on and one
    daily record, dated day 5, with supply 100 and 1000 USD in reserve.
    No record is dated before day 2 or day 3, and the pool still adds
    (10 / 100) * 1000 = 100 USD to both days. And with the records of day
    10 and day 1 listed in that order, the scan for day 5 keeps the record
    of day 10 although the one of day 1 is dated before the bucket. *)
Lemma mostRecent_of_not_before_bucket :
  useUserLiquidityChart parseFloatStr_nan
    (dayClient_of [dayData_A (5 * 86400) 100 1000]) (4 * 86400 + 5)%Z
    (Some [snapshot_A (2 * 86400 + 7) 10]) (Some (2 * 86400)%Z)
  = Some ([PAIR_DAY_DATA_BULK ["A"%string] (Some (2 * 86400)%Z)],
          Returned [ ChartEntry.mk (2 * 86400)%Z 100%float;
                     ChartEntry.mk (3 * 86400)%Z 100%float ])
  /\ Forall (fun dayData => ~ (PairDayData.date dayData < 2 * 86400)%Z)
       [dayData_A (5 * 86400) 100 1000]
  /\ PrimFloat.eqb 100 0 = false
  /\ mostRecent_of (5 * 86400)%Z
       [dayData_A (10 * 86400) 100 1000; dayData_A (1 * 86400) 100 500]
     = Some (dayData_A (10 * 86400) 100 1000).
Proof.
  split; [reflexivity|]. split; [|split; reflexivity].
  constructor; [cbn; lia | constructor].
Qed.

(** ** The daily liquidity chart: the ownership map *)

Lemma Obj_get_set_eq {V : Type} (o : Obj.t V) k v :
  Obj.get (Obj.set o k v) k = Some v.
Proof.
  induction o as [|[k' v'] o IH]; cbn.
  - now rewrite String.eqb_refl.
  - destruct (String.eqb k' k) eqn:E; cbn; rewrite E; [reflexivity | exact IH].
Qed.

Lemma Obj_get_set_ne {V : Type} (o : Obj.t V) k k' v :
  k <> k' -> Obj.get (Obj.set o k v) k' = Obj.get o k'.
Proof.
  intros Hne. induction o as [|[k0 v0] o IH]; cbn.
  - now apply String.eqb_neq in Hne as ->.
  - destruct (String.eqb k0 k) eqn:E; cbn.
    + apply String.eqb_eq in E as ->.
      now apply String.eqb_neq in Hne as ->.
    + now rewrite IH.
Qed.

(** The keys of an object are the names it has a value under. *)
Lemma Obj_get_is_Some_keys {V : Type} (o : Obj.t V) k :
  is_Some (Obj.get o k) <-> In k (Obj.keys o).
Proof.
  unfold Obj.keys. induction o as [|[k' v] o IH]; cbn.
  - split; [intros [x Hx]; discriminate | tauto].
  - destruct (String.eqb_spec k' k) as [-> | Hne].
    + split; [now left | eauto].
    + rewrite IH. split; [now right | intros [Heq | Hin]; [congruence | exact Hin]].
Qed.

Lemma update_ownership_same ownershipPerPair position :
  Obj.get (update_ownership ownershipPerPair position)
    (Snapshot.pair_id position)
  = latest (Obj.get ownershipPerPair (Snapshot.pair_id position)) position.
Proof.
  unfold update_ownership, latest. fold (entry_of position).
  destruct (Obj.get ownershipPerPair (Snapshot.pair_id position))
    as [known|] eqn:Hknown.
  - rewrite Hknown.
    destruct (Ownership.timestamp known <? Snapshot.timestamp position)%Z.
    + apply Obj_get_set_eq.
    + exact Hknown.
  - rewrite Obj_get_set_eq. cbn.
    rewrite Z.ltb_irrefl. apply Obj_get_set_eq.
Qed.

Lemma update_ownership_other ownershipPerPair position id :
  Snapshot.pair_id position <> id ->
  Obj.get (update_ownership ownershipPerPair position) id
  = Obj.get ownershipPerPair id.
Proof.
  intros Hne. unfold update_ownership. fold (entry_of position).
  destruct (Obj.get ownershipPerPair (Snapshot.pair_id position))
    as [known|] eqn:Hknown.
  - rewrite Hknown.
    destruct (Ownership.timestamp known <? Snapshot.timestamp position)%Z;
      [now apply Obj_get_set_ne | reflexivity].
  - rewrite Obj_get_set_eq. cbn. rewrite Z.ltb_irrefl.
    now apply Obj_get_set_ne.
Qed.

(** The entry of a pool after a run of updates is the fold of [latest]
    over the pool's snapshots among them. *)
Lemma fold_update_ownership_get positions ownershipPerPair id :
  Obj.get (fold_left update_ownership positions ownershipPerPair) id
  = fold_left latest
      (List.filter (fun p => String.eqb (Snapshot.pair_id p) id) positions)
      (Obj.get ownershipPerPair id).
Proof.
  revert ownershipPerPair.
  induction positions as [|position positions IH]; intros ownershipPerPair;
    cbn [fold_left List.filter]; [reflexivity|].
  rewrite IH.
  destruct (String.eqb (Snapshot.pair_id position) id) eqn:E.
  - apply String.eqb_eq in E as <-. cbn [fold_left].
    now rewrite update_ownership_same.
  - apply String.eqb_neq in E. now rewrite update_ownership_other.
Qed.

(** Folding [latest] from a snapshot's entry ends on the entry of the
    first snapshot of the largest timestamp. *)
Lemma fold_latest_from_entry positions position :
  exists winner,
    fold_left latest positions (Some (entry_of position))
    = Some (entry_of winner)
    /\ (winner = position \/ In winner positions)
    /\ (Snapshot.timestamp position <= Snapshot.timestamp winner)%Z
    /\ Forall
         (fun p => (Snapshot.timestamp p <= Snapshot.timestamp winner)%Z)
         positions.
Proof.
  revert position.
  induction positions as [|next positions IH]; intros position;
    cbn [fold_left].
  - exists position. repeat split; [now left | lia | constructor].
  - unfold latest at 2. cbn [entry_of Ownership.timestamp].
    destruct (Z.ltb_spec (Snapshot.timestamp position)
                (Snapshot.timestamp next)) as [Hlt | Hge].
    + destruct (IH next) as (winner & Hfold & Hfrom & Hle & Hall).
      exists winner. split; [exact Hfold|].
      split; [right; destruct Hfrom as [-> | Hin]; [now left | now right]|].
      split; [lia|]. constructor; [exact Hle | exact Hall].
    + destruct (IH position) as (winner & Hfold & Hfrom & Hle & Hall).
      exists winner. split; [exact Hfold|].
      split; [destruct Hfrom as [-> | Hin]; [now left | right; now right]|].
      split; [exact Hle|]. constructor; [lia | exact Hall].
Qed.

(** When the known entry, if any, is older than every snapshot folded in,
    the fold ends on the entry of a snapshot of the largest timestamp. *)
Lemma fold_latest_newer positions known :
  positions <> [] ->
  (forall k, known = Some k ->
     Forall (fun p => (Ownership.timestamp k < Snapshot.timestamp p)%Z)
       positions) ->
  exists winner,
    fold_left latest positions known = Some (entry_of winner)
    /\ In winner positions
    /\ Forall
         (fun p => (Snapshot.timestamp p <= Snapshot.timestamp winner)%Z)
         positions.
Proof.
  destruct positions as [|position positions]; [congruence|].
  intros _ Hnewer. cbn [fold_left].
  assert (Hfirst : latest known position = Some (entry_of position)).
  { destruct known as [k|]; cbn; [|reflexivity].
    specialize (Hnewer k eq_refl). inversion Hnewer as [|? ? Hk _]; subst.
    now apply Z.ltb_lt in Hk as ->. }
  rewrite Hfirst.
  destruct (fold_latest_from_entry positions position)
    as (winner & Hfold & Hfrom & Hle & Hall).
  exists winner. split; [exact Hfold|].
  split; [destruct Hfrom as [-> | Hin]; [now left | now right]|].
  constructor; [exact Hle | exact Hall].
Qed.

(** The fold of [latest] ends on the known entry or on a snapshot's. *)
Lemma fold_latest_origin positions known found :
  fold_left latest positions known = Some found ->
  known = Some found \/ exists p, In p positions /\ found = entry_of p.
Proof.
  revert known.
  induction positions as [|position positions IH]; intros known;
    cbn [fold_left]; [now left|].
  intros Hfold. apply IH in Hfold as [Hstep | (p & Hin & ->)].
  - unfold latest in Hstep.
    destruct known as [k|].
    + destruct (Ownership.timestamp k <? Snapshot.timestamp position)%Z;
        injection Hstep as <-; [right; exists position; split; [now left | reflexivity] | now left].
    + injection Hstep as <-. right. exists position. split; [now left | reflexivity].
  - right. exists p. split; [now right | reflexivity].
Qed.

Lemma relevantPositions_of_In history dayTimestamp position :
  In position (relevantPositions_of history dayTimestamp)
  <-> In position history /\ in_window dayTimestamp position.
Proof.
  unfold relevantPositions_of, in_window.
  rewrite filter_In, andb_true_iff, Z.ltb_lt, Z.gtb_lt. intuition lia.
Qed.

Lemma days_from_snoc dayIndex n :
  days_from dayIndex (S n)
  = days_from dayIndex n ++ [((dayIndex + Z.of_nat n) * 86400)%Z].
Proof.
  revert dayIndex.
  induction n as [|n IH]; intros dayIndex.
  - cbn. now rewrite Z.add_0_r.
  - cbn [days_from] in *. rewrite (IH (dayIndex + 1)%Z). cbn [app].
    do 3 f_equal. lia.
Qed.

Section ChartOwnership.

Variable parseFloatStr : string -> float.
Variable history : list Snapshot.t.
Variable pairDayDatas : list PairDayData.t.

Local Abbreviation run := (run_days parseFloatStr history pairDayDatas).

Lemma run_days_snoc dayTimestamps dayTimestamp :
  fst (run (dayTimestamps ++ [dayTimestamp]))
  = fold_left update_ownership (relevantPositions_of history dayTimestamp)
      (fst (run dayTimestamps)).
Proof.
  unfold run_days. rewrite fold_left_app. cbn [fold_left].
  now destruct (fold_left _ dayTimestamps _) as [own acc].
Qed.

(** The pool's snapshots that a day bucket takes in. *)
Lemma pool_positions_In dayTimestamp id position :
  In position
     (List.filter (fun p => String.eqb (Snapshot.pair_id p) id)
        (relevantPositions_of history dayTimestamp))
  <-> In position history
      /\ Snapshot.pair_id position = id
      /\ in_window dayTimestamp position.
Proof.
  rewrite filter_In, relevantPositions_of_In, String.eqb_eq. tauto.
Qed.

(** After the days [dayIndex], ..., [dayIndex + n - 1], every entry of
    the ownership map is older than the start of day [dayIndex + n]. *)
Lemma run_days_entries_before dayIndex n :
  entries_before ((dayIndex + Z.of_nat n) * 86400)%Z
    (fst (run (days_from dayIndex n))).
Proof.
  induction n as [|n IH].
  - intros id known. cbn. discriminate.
  - rewrite days_from_snoc, run_days_snoc.
    intros id known. rewrite fold_update_ownership_get.
    intros Hfold. apply fold_latest_origin in Hfold as [Hold | (p & Hin & ->)].
    + apply IH in Hold. lia.
    + apply pool_positions_In in Hin as (_ & _ & Hwin).
      unfold in_window in Hwin. cbn. lia.
Qed.

(** The ownership map after one more day: a pool without a snapshot in
    the day's window keeps its entry; a pool with some gets the entry of
    one of them of the largest timestamp. *)
Lemma run_days_next_day dayIndex n id :
  let dayTimestamp := ((dayIndex + Z.of_nat n) * 86400)%Z in
  let before := fst (run (days_from dayIndex n)) in
  let after := fst (run (days_from dayIndex (S n))) in
  ((forall s, In s history -> Snapshot.pair_id s = id ->
              ~ in_window dayTimestamp s) ->
   Obj.get after id = Obj.get before id)
  /\ (forall s, In s history -> Snapshot.pair_id s = id ->
                in_window dayTimestamp s ->
      exists winner,
        In winner history
        /\ Snapshot.pair_id winner = id
        /\ in_window dayTimestamp winner
        /\ (forall q, In q history -> Snapshot.pair_id q = id ->
                      in_window dayTimestamp q ->
                      (Snapshot.timestamp q <= Snapshot.timestamp winner)%Z)
        /\ Obj.get after id = Some (entry_of winner)).
Proof.
  intros dayTimestamp before after. subst after.
  rewrite days_from_snoc, run_days_snoc, fold_update_ownership_get.
  fold dayTimestamp. fold before.
  set (positions := List.filter _ (relevantPositions_of history dayTimestamp)).
  split.
  - intros Hnone.
    destruct positions as [|p positions'] eqn:Hpos; [reflexivity|].
    assert (Hin : In p positions) by (rewrite Hpos; now left).
    apply pool_positions_In in Hin as (Hin & Hid & Hwin).
    now destruct (Hnone p Hin Hid).
  - intros s Hs Hid Hwin.
    destruct (fold_latest_newer positions (Obj.get before id))
      as (winner & Hfold & Hwinner & Hmax).
    + intros Hempty.
      assert (Hin : In s positions) by (apply pool_positions_In; tauto).
      rewrite Hempty in Hin. destruct Hin.
    + intros k Hk. apply Forall_forall. intros p Hp.
      apply list_elem_of_In, pool_positions_In in Hp as (_ & _ & Hpwin).
      apply (run_days_entries_before dayIndex n) in Hk.
      unfold in_window in Hpwin. fold dayTimestamp in Hk. lia.
    + apply pool_positions_In in Hwinner as (Hwin_in & Hwin_id & Hwin_win).
      exists winner. repeat split; try assumption; try apply Hwin_win.
      intros q Hq Hqid Hqwin. rewrite Forall_forall in Hmax.
      apply Hmax, list_elem_of_In, pool_positions_In. tauto.
Qed.

(** Of several snapshots of a pool in one day bucket, the latest
    decides: the pool's entry carries its timestamp. *)
Lemma run_days_latest_of_several dayIndex n id latest_one earlier :
  let dayTimestamp := ((dayIndex + Z.of_nat n) * 86400)%Z in
  let after := fst (run (days_from dayIndex (S n))) in
  In latest_one history -> In earlier history ->
  Snapshot.pair_id latest_one = id -> Snapshot.pair_id earlier = id ->
  in_bucket dayTimestamp latest_one -> in_bucket dayTimestamp earlier ->
  (Snapshot.timestamp earlier < Snapshot.timestamp latest_one)%Z ->
  (forall q, In q history -> Snapshot.pair_id q = id ->
             in_bucket dayTimestamp q ->
             (Snapshot.timestamp q <= Snapshot.timestamp latest_one)%Z) ->
  exists winner,
    In winner history
    /\ Snapshot.pair_id winner = id
    /\ Snapshot.timestamp winner = Snapshot.timestamp latest_one
    /\ Obj.get after id = Some (entry_of winner).
Proof.
  intros dayTimestamp after Hin _ Hid _ Hbucket Hbucket' Hlt Hmax.
  assert (Hwin : in_window dayTimestamp latest_one)
    by (unfold in_window, in_bucket in *; lia).
  destruct (run_days_next_day dayIndex n id) as [_ Hsome].
  destruct (Hsome latest_one Hin Hid Hwin)
    as (winner & Hwinner & Hwid & Hwwin & Hwmax & Hget).
  exists winner. repeat split; try assumption.
  apply Z.le_antisymm.
  - apply Hmax; try assumption. unfold in_window, in_bucket in *. lia.
  - now apply Hwmax.
Qed.

End ChartOwnership.

(** ** The daily liquidity chart: what a day is worth *)

(** The scan over the records of a pool ends on the record that
    [values_pool] tells. *)
Lemma mostRecent_of_values_pool pairDayDatas dayTimestamp pairAddress :
  values_pool pairDayDatas dayTimestamp pairAddress
    (mostRecent_of dayTimestamp
       (dayDatasForThisPair_of pairDayDatas pairAddress)).
Proof.
  unfold values_pool. fold (dayDatasForThisPair_of pairDayDatas pairAddress).
  destruct (dayDatasForThisPair_of pairDayDatas pairAddress) as [|first rest];
    [reflexivity|].
  eexists. split; [reflexivity|].
  destruct (Z.ltb_spec (PairDayData.date first) dayTimestamp) as [Hearly | Hlate].
  - destruct (scan_from_early_candidate dayTimestamp (first :: rest) first Hearly)
      as (_ & Hbefore & _ & Hall).
    split; [exact Hbefore|]. split; [exact Hall|].
    destruct (scan_first_of_latest dayTimestamp (first :: rest) first Hearly)
      as [Hstay | (earlier & later & Hsplit & _ & Hearlier)].
    + exists [], rest. rewrite Hstay. split; [reflexivity | constructor].
    + exists earlier, later. split; [exact Hsplit | exact Hearlier].
  - now apply scan_keeps_late_candidate.
Qed.

(** The record found for a pool is one of that pool. *)
Lemma mostRecent_of_pairAddress pairDayDatas dayTimestamp pairAddress found :
  mostRecent_of dayTimestamp (dayDatasForThisPair_of pairDayDatas pairAddress)
  = Some found ->
  PairDayData.pairAddress found = pairAddress.
Proof.
  destruct (dayDatasForThisPair_of pairDayDatas pairAddress)
    as [|first rest] eqn:Hrecs; [discriminate|].
  destruct (mostRecent_of_found dayTimestamp first rest)
    as (found' & -> & Hin & _).
  intros [= <-]. rewrite <- Hrecs in Hin.
  now apply dayDatasForThisPair_of_In in Hin.
Qed.

(** The sum of a day, pool by pool. *)
Lemma fold_add_dayData_pools parseFloatStr ownershipPerPair pairDayDatas
    dayTimestamp pairAddresses totalUSD :
  (forall pairAddress,
      In pairAddress pairAddresses ->
      is_Some (Obj.get ownershipPerPair pairAddress)) ->
  let record_of pairAddress :=
    mostRecent_of dayTimestamp
      (dayDatasForThisPair_of pairDayDatas pairAddress) in
  fold_left (add_dayData parseFloatStr ownershipPerPair)
    (map record_of pairAddresses) totalUSD
  = fold_left (add_pool_usd parseFloatStr ownershipPerPair)
      (combine pairAddresses (map record_of pairAddresses)) totalUSD.
Proof.
  intros Hknown record_of. revert totalUSD.
  induction pairAddresses as [|pairAddress pairAddresses IH]; intros totalUSD;
    [reflexivity|].
  cbn [map combine fold_left].
  rewrite IH by (intros k Hk; apply Hknown; now right).
  f_equal.
  unfold add_dayData, add_pool_usd, contributedUSD. cbn [fst snd].
  destruct (Hknown pairAddress (or_introl eq_refl)) as [known Hget].
  destruct (record_of pairAddress) as [found|] eqn:Hfound.
  - apply mostRecent_of_pairAddress in Hfound as ->. now rewrite Hget.
  - now rewrite Hget.
Qed.

Lemma run_days_step parseFloatStr history pairDayDatas dayTimestamps
    dayTimestamp :
  run_days parseFloatStr history pairDayDatas (dayTimestamps ++ [dayTimestamp])
  = day_step parseFloatStr history pairDayDatas
      (run_days parseFloatStr history pairDayDatas dayTimestamps) dayTimestamp.
Proof. unfold run_days. now rewrite fold_left_app. Qed.

(** C4, as the code has it. On every day of the run, each pool with a
    known balance (each key of the ownership map, as it is after the
    day's snapshots) is valued using the record its scan ends on: the
    first listed of the pool's records when that one is dated on or after
    the day bucket, whatever the others are; else the first listed of
    those with the largest date strictly before the bucket. The value of
    the day, which is the entry the run appends for it, is the sum from 0
    over these pools, in the order of the keys, of
    [(lpTokenBalance / totalSupply) * reserveUSD] with the pool's balance
    and that record; a pool with no record at all adds nothing. *)
Theorem day_valued_with_scanned_records
    (parseFloatStr : string -> float) (history : list Snapshot.t)
    (pairDayDatas : list PairDayData.t) (dayTimestamps : list Z)
    (dayTimestamp : Z) :
  exists ownershipPerPair records,
    ownershipPerPair
    = fst (run_days parseFloatStr history pairDayDatas
             (dayTimestamps ++ [dayTimestamp]))
    /\ records = relavantDayDatas_of ownershipPerPair pairDayDatas dayTimestamp
    /\ (forall pairAddress,
          In pairAddress (Obj.keys ownershipPerPair)
          <-> is_Some (Obj.get ownershipPerPair pairAddress))
    /\ Forall2 (values_pool pairDayDatas dayTimestamp)
         (Obj.keys ownershipPerPair) records
    /\ dailyUSD_of parseFloatStr ownershipPerPair pairDayDatas dayTimestamp
       = fold_left (add_pool_usd parseFloatStr ownershipPerPair)
           (combine (Obj.keys ownershipPerPair) records) 0%float
    /\ snd (run_days parseFloatStr history pairDayDatas
              (dayTimestamps ++ [dayTimestamp]))
       = snd (run_days parseFloatStr history pairDayDatas dayTimestamps)
         ++ [ ChartEntry.mk dayTimestamp
                (fold_left (add_pool_usd parseFloatStr ownershipPerPair)
                   (combine (Obj.keys ownershipPerPair) records) 0%float) ].
Proof.
  eexists. eexists. split; [reflexivity|]. split; [reflexivity|].
  set (ownershipPerPair :=
         fst (run_days parseFloatStr history pairDayDatas
                (dayTimestamps ++ [dayTimestamp]))).
  assert (Hkeys : forall pairAddress,
             In pairAddress (Obj.keys ownershipPerPair)
             <-> is_Some (Obj.get ownershipPerPair pairAddress))
    by (intros pairAddress; symmetry; apply Obj_get_is_Some_keys).
  assert (Hsum :
            dailyUSD_of parseFloatStr ownershipPerPair pairDayDatas dayTimestamp
            = fold_left (add_pool_usd parseFloatStr ownershipPerPair)
                (combine (Obj.keys ownershipPerPair)
                   (relavantDayDatas_of ownershipPerPair pairDayDatas
                      dayTimestamp)) 0%float).
  { unfold dailyUSD_of, relavantDayDatas_of.
    apply fold_add_dayData_pools. intros pairAddress. apply Hkeys. }
  split; [exact Hkeys|]. split; [|split; [exact Hsum|]].
  - unfold relavantDayDatas_of. clear Hkeys Hsum.
    induction (Obj.keys ownershipPerPair) as [|pairAddress pairAddresses IH];
      cbn [map]; [constructor|].
    constructor; [apply mostRecent_of_values_pool | exact IH].
  - rewrite <- Hsum. subst ownershipPerPair. rewrite run_days_step.
    destruct (run_days parseFloatStr history pairDayDatas dayTimestamps)
      as [known formattedHistory].
    reflexivity.
Qed.

(** X30. What the ownership map does keep. The window of a day bucket is
    open at both ends: the snapshots stamped strictly after the day's
    first second and strictly before the next day's. In the run of the
    aggregator over consecutive day buckets, a pool with snapshots in the
    window of a bucket gets the balance of one of them of the latest
    timestamp, and a pool without any keeps the entry it had; and when a
    snapshot of a pool in the bucket is stamped strictly after another
    one of the pool there and as late as any, the pool's entry carries that
    latest timestamp. With the snapshots {t=100, A, 10} and {t=200, A, 15},
    the record {date=0, A, totalSupply=100, reserveUSD=1000} and the
    window start 50, the bucket of day 0 holds balance 15 for [A] and its
    value is (15 / 100) * 1000 = 150. *)
Theorem ownership_keeps_latest_in_bucket :
  (forall (parseFloatStr : string -> float) (history : list Snapshot.t)
          (pairDayDatas : list PairDayData.t) (dayIndex : Z) (n : nat)
          (id : string),
      let dayTimestamp := ((dayIndex + Z.of_nat n) * 86400)%Z in
      let before :=
        fst (run_days parseFloatStr history pairDayDatas
               (days_from dayIndex n)) in
      let after :=
        fst (run_days parseFloatStr history pairDayDatas
               (days_from dayIndex (S n))) in
      ((forall s, In s history -> Snapshot.pair_id s = id ->
                  ~ in_window dayTimestamp s) ->
       Obj.get after id = Obj.get before id)
      /\ (forall s, In s history -> Snapshot.pair_id s = id ->
                    in_window dayTimestamp s ->
          exists winner,
            In winner history
            /\ Snapshot.pair_id winner = id
            /\ in_window dayTimestamp winner
            /\ (forall q, In q history -> Snapshot.pair_id q = id ->
                          in_window dayTimestamp q ->
                          (Snapshot.timestamp q <= Snapshot.timestamp winner)%Z)
            /\ Obj.get after id
               = Some (Ownership.mk (Snapshot.liquidityTokenBalance winner)
                                    (Snapshot.timestamp winner)))
      /\ (forall latest_one earlier,
            In latest_one history -> In earlier history ->
            Snapshot.pair_id latest_one = id ->
            Snapshot.pair_id earlier = id ->
            in_bucket dayTimestamp latest_one ->
            in_bucket dayTimestamp earlier ->
            (Snapshot.timestamp earlier < Snapshot.timestamp latest_one)%Z ->
            (forall q, In q history -> Snapshot.pair_id q = id ->
                       in_bucket dayTimestamp q ->
                       (Snapshot.timestamp q
                        <= Snapshot.timestamp latest_one)%Z) ->
            exists winner,
              In winner history
              /\ Snapshot.pair_id winner = id
              /\ Snapshot.timestamp winner = Snapshot.timestamp latest_one
              /\ Obj.get after id
                 = Some (Ownership.mk (Snapshot.liquidityTokenBalance winner)
                                      (Snapshot.timestamp winner))))
  /\ useUserLiquidityChart parseFloatStr_nan
       (dayClient_of [dayData_A 0 100 1000]) (2 * 86400 + 5)%Z
       (Some [snapshot_A 100 10; snapshot_A 200 15]) (Some 50%Z)
     = Some ([PAIR_DAY_DATA_BULK ["A"%string; "A"%string] (Some 50%Z)],
             Returned [ ChartEntry.mk 0 150%float;
                        ChartEntry.mk 86400 150%float ])
  /\ Obj.get
       (fst (run_days parseFloatStr_nan [snapshot_A 100 10; snapshot_A 200 15]
               [dayData_A 0 100 1000] [0%Z]))
       "A"
     = Some (Ownership.mk (SNum 15) 200)
  /\ (15 / 100 * 1000)%float = 150%float.
Proof.
  split; [|repeat split].
  intros parseFloatStr history pairDayDatas dayIndex n id.
  destruct (run_days_next_day parseFloatStr history pairDayDatas dayIndex n id)
    as [Hkeep Hlatest].
  split; [exact Hkeep|]. split; [exact Hlatest|].
  intros latest_one earlier.
  apply run_days_latest_of_several.
Qed.

Lemma ownership_keeps_latest_in_bucket_witness :
  exists winner,
    In winner [snapshot_A 100 10; snapshot_A 200 15]
    /\ Snapshot.pair_id winner = "A"%string
    /\ in_window 0 winner
    /\ (forall q, In q [snapshot_A 100 10; snapshot_A 200 15] ->
                  Snapshot.pair_id q = "A"%string ->
                  in_window 0 q ->
                  (Snapshot.timestamp q <= Snapshot.timestamp winner)%Z)
    /\ Obj.get
         (fst (run_days parseFloatStr_nan [snapshot_A 100 10; snapshot_A 200 15]
                 [dayData_A 0 100 1000] (days_from 0 1)))
         "A"
       = Some (Ownership.mk (Snapshot.liquidityTokenBalance winner)
                            (Snapshot.timestamp winner)).
Proof.
  destruct ownership_keeps_latest_in_bucket as [Hgeneral _].
  destruct (Hgeneral parseFloatStr_nan [snapshot_A 100 10; snapshot_A 200 15]
              [dayData_A 0 100 1000] 0%Z 0%nat "A"%string) as [_ [Hsome _]].
  apply (Hsome (snapshot_A 200 15)).
  - right. left. reflexivity.
  - reflexivity.
  - unfold in_window. cbn. lia.
Defined.

(** C5, where the code departs from it. A snapshot stamped on the very
    first second of a day belongs to that day's bucket, and it is the day
    the chart starts on when it is the user's first; yet the filter of the
    daily loop tests [snapshot.timestamp > dayTimestamp] and takes it in
    neither on that day nor on any other. With two snapshots of pool [A]
    stamped 86400, with balances 10 and 15, both in the bucket of day 1,
    the ownership map keeps the balance of neither: [A] is never added to
    it, and the chart reads 0 on both days instead of 100 or 150. *)
Theorem ownership_drops_day_start_snapshots :
  Forall (in_bucket 86400) [snapshot_A 86400 10; snapshot_A 86400 15]
  /\ start_dayIndex (Some 50%Z)
       (sort_snapshots [snapshot_A 86400 10; snapshot_A 86400 15])
     = Some 1%Z
  /\ Forall
       (fun dayTimestamp =>
          relevantPositions_of [snapshot_A 86400 10; snapshot_A 86400 15]
            dayTimestamp = [])
       [0%Z; 86400%Z; 172800%Z]
  /\ Obj.get
       (fst (run_days parseFloatStr_nan
               [snapshot_A 86400 10; snapshot_A 86400 15]
               [dayData_A 0 100 1000] [86400%Z; 172800%Z]))
       "A"
     = None
  /\ useUserLiquidityChart parseFloatStr_nan
       (dayClient_of [dayData_A 0 100 1000]) (3 * 86400 + 5)%Z
       (Some [snapshot_A 86400 10; snapshot_A 86400 15]) (Some 50%Z)
     = Some ([PAIR_DAY_DATA_BULK ["A"%string; "A"%string] (Some 50%Z)],
             Returned [ ChartEntry.mk 86400 0%float;
                        ChartEntry.mk 172800 0%float ])
  /\ (10 / 100 * 1000)%float = 100%float
  /\ (15 / 100 * 1000)%float = 150%float.
Proof.
  split; [|repeat split; repeat constructor].
  repeat constructor; cbn; lia.
Qed.

(** ** The cache: more on the reducer *)

(** The reducer reads the state through the entry of [payload.account]
    only: it writes one key of that entry, with a value that depends on
    nothing else. *)
Lemma reducer_local state other type payload state' :
  reducer state type payload = Some state' ->
  prop other (Payload.account payload) = prop state (Payload.account payload) ->
  exists key value,
    written_key type = Some key
    /\ state' = set_account_key state (Payload.account payload) key value
    /\ reducer other type payload
       = Some (set_account_key other (Payload.account payload) key value).
Proof.
  unfold reducer, written_key. intros Hstep Hsame.
  destruct (String.eqb type UPDATE_TRANSACTIONS);
    [injection Hstep as <-; eexists _, _; repeat split|].
  destruct (String.eqb type UPDATE_POSITIONS);
    [injection Hstep as <-; eexists _, _; repeat split|].
  destruct (String.eqb type UPDATE_MINING_POSITIONS);
    [injection Hstep as <-; eexists _, _; repeat split|].
  destruct (String.eqb type UPDATE_USER_POSITION_HISTORY);
    [injection Hstep as <-; eexists _, _; repeat split|].
  destruct (String.eqb type UPDATE_USER_PAIR_RETURNS); [|discriminate].
  injection Hstep as <-. eexists _, _. repeat split. now rewrite Hsame.
Qed.

Lemma set_account_key_prop_other state account key value other :
  other <> account ->
  prop (set_account_key state account key value) other = prop state other.
Proof.
  intros Hne. unfold prop. now rewrite set_account_key_other.
Qed.

(** X1. What a callback of the provider writes is what the hooks read
    back: each of the five callbacks is accepted by the reducer, and the
    value it was given is then under the account's key (for pair returns,
    under the pair address). *)
Theorem callbacks_read_back (state : jsval) (account pairAddress : string)
    (value : jsval) :
  (exists state',
      updateTransactions state account value = Some state'
      /\ read_key state' account TRANSACTIONS_KEY = value)
  /\ (exists state',
        updatePositions state account value = Some state'
        /\ read_key state' account POSITIONS_KEY = value)
  /\ (exists state',
        updateMiningPositions state account value = Some state'
        /\ read_key state' account MINING_POSITIONS_KEY = value)
  /\ (exists state',
        updateUserSnapshots state account value = Some state'
        /\ read_key state' account USER_SNAPSHOTS = value)
  /\ (exists state',
        updateUserPairReturns state account pairAddress value = Some state'
        /\ read_pair_returns state' account pairAddress = value).
Proof.
  repeat split; eexists; (split; [reflexivity|]);
    unfold read_pair_returns, read_key; cbn [Payload.account];
    rewrite set_account_key_account; unfold prop; cbn;
    rewrite ?lookup_insert_eq; cbn; rewrite ?lookup_insert_eq; reflexivity.
Qed.

Lemma prop_insert_eq props key value :
  prop (JObj (<[key := value]> props)) key = value.
Proof. unfold prop. cbn [spread]. now rewrite lookup_insert_eq. Qed.

Lemma prop_insert_ne props key other value :
  key <> other ->
  prop (JObj (<[key := value]> props)) other = prop (JObj props) other.
Proof. intros Hne. unfold prop. cbn [spread]. now rewrite lookup_insert_ne. Qed.

Lemma set_account_key_twice state account key value :
  set_account_key (set_account_key state account key value) account key value
  = set_account_key state account key value.
Proof.
  unfold set_account_key at 1. rewrite set_account_key_account.
  cbn [spread]. unfold set_account_key. cbn [spread].
  now rewrite !insert_insert_eq.
Qed.

(** X2. Dispatching an accepted action a second time changes nothing:
    the state after the first dispatch is a fixed point of it. *)
Theorem reducer_idempotent (state : jsval) (type : string)
    (payload : Payload.t) (state' : jsval) :
  reducer state type payload = Some state' ->
  reducer state' type payload = Some state'.
Proof.
  unfold reducer.
  destruct (String.eqb type UPDATE_TRANSACTIONS);
    [intros [= <-]; f_equal; apply set_account_key_twice|].
  destruct (String.eqb type UPDATE_POSITIONS);
    [intros [= <-]; f_equal; apply set_account_key_twice|].
  destruct (String.eqb type UPDATE_MINING_POSITIONS);
    [intros [= <-]; f_equal; apply set_account_key_twice|].
  destruct (String.eqb type UPDATE_USER_POSITION_HISTORY);
    [intros [= <-]; f_equal; apply set_account_key_twice|].
  destruct (String.eqb type UPDATE_USER_PAIR_RETURNS); [|discriminate].
  intros [= <-]. f_equal.
  rewrite set_account_key_account at 1.
  rewrite prop_insert_eq. cbn [spread].
  rewrite insert_insert_eq. apply set_account_key_twice.
Qed.

Lemma reducer_idempotent_witness :
  reducer
    (after_dispatch example_state
       (updateUserPairReturns example_state "0xa" "0xp2" (JPrim (PNum 8))))
    UPDATE_USER_PAIR_RETURNS example_payload
  = Some (after_dispatch example_state
            (updateUserPairReturns example_state "0xa" "0xp2" (JPrim (PNum 8)))).
Proof.
  apply (reducer_idempotent example_state UPDATE_USER_PAIR_RETURNS
           example_payload).
  reflexivity.
Defined.

Lemma set_account_key_commute state account1 key1 value1 account2 key2 value2 :
  account1 <> account2 ->
  set_account_key (set_account_key state account1 key1 value1)
    account2 key2 value2
  = set_account_key (set_account_key state account2 key2 value2)
      account1 key1 value1.
Proof.
  intros Hne. unfold set_account_key at 1 3.
  rewrite !set_account_key_prop_other by congruence.
  unfold set_account_key. cbn [spread]. f_equal.
  now apply insert_insert_ne.
Qed.

(** X3. Updates of two different accounts commute: dispatched in either
    order from the same state, two accepted actions lead to the same
    state. *)
Theorem reducer_commutes_across_accounts
    (state : jsval) (type1 type2 : string) (payload1 payload2 : Payload.t)
    (state1 state2 : jsval) :
  Payload.account payload1 <> Payload.account payload2 ->
  reducer state type1 payload1 = Some state1 ->
  reducer state type2 payload2 = Some state2 ->
  exists both,
    reducer state1 type2 payload2 = Some both
    /\ reducer state2 type1 payload1 = Some both.
Proof.
  intros Hne Hstep1 Hstep2.
  destruct (reducer_local state state2 type1 payload1 state1 Hstep1)
    as (key1 & value1 & _ & Hstate1 & Hthen1).
  { destruct (reducer_writes _ _ _ _ Hstep2) as (k & v & _ & -> & _).
    apply set_account_key_prop_other. congruence. }
  destruct (reducer_local state state1 type2 payload2 state2 Hstep2)
    as (key2 & value2 & _ & Hstate2 & Hthen2).
  { rewrite Hstate1. apply set_account_key_prop_other. congruence. }
  exists (set_account_key state1 (Payload.account payload2) key2 value2).
  split; [exact Hthen2|].
  rewrite Hthen1. f_equal. subst state1 state2.
  apply set_account_key_commute. congruence.
Qed.

Lemma reducer_commutes_across_accounts_witness :
  exists both,
    reducer
      (after_dispatch example_state
         (updateUserPairReturns example_state "0xa" "0xp2" (JPrim (PNum 8))))
      UPDATE_TRANSACTIONS
      {| Payload.account := "0xb"; Payload.pairAddress := "undefined";
         Payload.transactions := JPrim (PNum 9);
         Payload.positions := undefined;
         Payload.miningPositions := undefined;
         Payload.historyData := undefined; Payload.data := undefined |}
    = Some both
    /\ reducer
         (after_dispatch example_state
            (updateTransactions example_state "0xb" (JPrim (PNum 9))))
         UPDATE_USER_PAIR_RETURNS example_payload
       = Some both.
Proof.
  apply (reducer_commutes_across_accounts example_state
           UPDATE_USER_PAIR_RETURNS UPDATE_TRANSACTIONS example_payload
           {| Payload.account := "0xb"; Payload.pairAddress := "undefined";
              Payload.transactions := JPrim (PNum 9);
              Payload.positions := undefined;
              Payload.miningPositions := undefined;
              Payload.historyData := undefined; Payload.data := undefined |}).
  - discriminate.
  - reflexivity.
  - reflexivity.
Defined.

(** X4. The reducer never removes anything: an account that has an
    entry keeps one, and a key its entry has stays in it. *)
Theorem reducer_never_removes (state : jsval) (type : string)
    (payload : Payload.t) (state' : jsval) :
  reducer state type payload = Some state' ->
  (forall account,
      is_Some (spread state !! account) ->
      is_Some (spread state' !! account))
  /\ (forall account key,
        is_Some (spread (prop state account) !! key) ->
        is_Some (spread (prop state' account) !! key)).
Proof.
  intros Hstep.
  apply reducer_writes in Hstep as (wkey & value & _ & -> & _).
  split.
  - intros account Hin.
    destruct (decide (account = Payload.account payload)) as [-> | Hne].
    + cbn. rewrite lookup_insert_eq. eauto.
    + now rewrite set_account_key_other.
  - intros account key Hin.
    destruct (decide (account = Payload.account payload)) as [-> | Hne].
    + rewrite set_account_key_account. cbn [spread].
      destruct (decide (key = wkey)) as [-> | Hkey].
      * rewrite lookup_insert_eq. eauto.
      * now rewrite lookup_insert_ne.
    + now rewrite set_account_key_prop_other.
Qed.

Lemma reducer_never_removes_witness :
  is_Some (spread (after_dispatch example_state
                     (updateTransactions example_state "0xa" (JPrim (PNum 4))))
           !! "0xb"%string)
  /\ is_Some (spread (prop (after_dispatch example_state
                             (updateTransactions example_state "0xa"
                                (JPrim (PNum 4)))) "0xa")
             !! POSITIONS_KEY).
Proof.
  destruct (reducer_never_removes example_state UPDATE_TRANSACTIONS
              {| Payload.account := "0xa"; Payload.pairAddress := "undefined";
                 Payload.transactions := JPrim (PNum 4);
                 Payload.positions := undefined;
                 Payload.miningPositions := undefined;
                 Payload.historyData := undefined; Payload.data := undefined |}
              _ eq_refl) as [Haccounts Hkeys].
  split.
  - apply Haccounts. eexists. reflexivity.
  - apply Hkeys. eexists. reflexivity.
Defined.

(** X5. Every state the cache goes through, from the initial one, is an
    object whose entries are objects, and the pair returns of an account
    are an object: the spreads of the reducer never meet a primitive. *)
Theorem reachable_cache_shaped (state : jsval) :
  reachable state -> cache_shaped state.
Proof.
  induction 1 as [|state type payload state' _ IH Hstep].
  - exists ∅. split; [reflexivity|]. intros account entry Hin.
    now rewrite lookup_empty in Hin.
  - destruct IH as (accounts & -> & Hshape).
    pose proof (reducer_writes _ _ _ _ Hstep) as (key & value & Hkey & -> & Hpair).
    eexists. split; [reflexivity|].
    intros account entry Hin.
    destruct (decide (account = Payload.account payload)) as [-> | Hne].
    + rewrite lookup_insert_eq in Hin. injection Hin as <-.
      eexists. split; [reflexivity|]. intros returns Hreturns.
      destruct (decide (key = USER_PAIR_RETURNS_KEY)) as [-> | Hother].
      * rewrite lookup_insert_eq in Hreturns. injection Hreturns as <-.
        assert (Htype : type = UPDATE_USER_PAIR_RETURNS).
        { unfold written_key in Hkey.
          destruct (String.eqb type UPDATE_TRANSACTIONS); [discriminate|].
          destruct (String.eqb type UPDATE_POSITIONS); [discriminate|].
          destruct (String.eqb type UPDATE_MINING_POSITIONS); [discriminate|].
          destruct (String.eqb type UPDATE_USER_POSITION_HISTORY); [discriminate|].
          destruct (String.eqb_spec type UPDATE_USER_PAIR_RETURNS);
            [assumption | discriminate]. }
        destruct (Hpair Htype) as [_ ->]. eauto.
      * rewrite lookup_insert_ne in Hreturns by congruence.
        unfold prop in Hreturns. cbn [spread] in Hreturns.
        destruct (accounts !! Payload.account payload) as [old|] eqn:Hold;
          cbn in Hreturns.
        -- destruct (Hshape _ _ Hold) as (keys & -> & Hkeys).
           now apply Hkeys.
        -- now rewrite lookup_empty in Hreturns.
    + rewrite lookup_insert_ne in Hin by congruence. now apply (Hshape account).
Qed.

Lemma reachable_cache_shaped_witness :
  cache_shaped
    (after_dispatch INITIAL_STATE
       (updateUserPairReturns INITIAL_STATE "0xa" "0xp1" (JPrim (PNum 2)))).
Proof.
  apply reachable_cache_shaped.
  apply (reachable_step INITIAL_STATE UPDATE_USER_PAIR_RETURNS
           {| Payload.account := "0xa"; Payload.pairAddress := "0xp1";
              Payload.transactions := undefined;
              Payload.positions := undefined;
              Payload.miningPositions := undefined;
              Payload.historyData := undefined;
              Payload.data := JPrim (PNum 2) |}).
  - apply reachable_initial.
  - reflexivity.
Defined.

(** ** The hooks that fill the cache *)

(** X6. [useUserTransactions] fetches once. For an account whose
    transactions are not cached, when the backend answers with an object,
    the effect sends the one query, the hook then returns that object, and
    running the effect again on the new state sends nothing and leaves the
    state as it is. *)
Theorem useUserTransactions_fetches_once
    (client : user_request -> option jsval) (state : jsval) (account : string)
    (data : jsval) :
  truthy_key account = true ->
  truthy (read_key state account TRANSACTIONS_KEY) = false ->
  client (USER_TRANSACTIONS account) = Some data ->
  truthy data = true ->
  let state' := snd (useUserTransactions_effect client state account) in
  fst (useUserTransactions_effect client state account)
  = [USER_TRANSACTIONS account]
  /\ useUserTransactions state' account = data
  /\ useUserTransactions_effect client state' account = ([], state').
Proof.
  intros Haccount Hmiss Hanswer Hdata state'. subst state'.
  destruct (callbacks_read_back state account "" data)
    as [(next & Hnext & Hread) _].
  assert (Heffect : useUserTransactions_effect client state account
                    = ([USER_TRANSACTIONS account], next)).
  { unfold useUserTransactions_effect.
    rewrite Hmiss, Haccount, Hanswer, Hdata, Hnext. reflexivity. }
  rewrite Heffect. cbn [fst snd].
  split; [reflexivity|].
  unfold useUserTransactions, useUserTransactions_effect.
  rewrite Hread, Hdata. split; reflexivity.
Qed.

Lemma useUserTransactions_fetches_once_witness :
  let client := fun _ : user_request => Some (JObj ∅) in
  let state' := snd (useUserTransactions_effect client INITIAL_STATE "0xa") in
  fst (useUserTransactions_effect client INITIAL_STATE "0xa")
  = [USER_TRANSACTIONS "0xa"]
  /\ useUserTransactions state' "0xa" = JObj ∅
  /\ useUserTransactions_effect client state' "0xa" = ([], state').
Proof.
  apply (useUserTransactions_fetches_once
           (fun _ : user_request => Some (JObj ∅)) INITIAL_STATE "0xa" (JObj ∅));
    reflexivity.
Defined.

Section UserHistoryFacts.

Context {A : Type}.
Variable client : user_request -> option (list A).
Variable account : string.

(** The loop on a backend that serves the list [all] by pages. *)
Lemma userHistory_loop_paged (all : list A) fuel allResults skip :
  (forall from,
      client (USER_HISTORY from account)
      = Some (firstn 1000 (skipn from all))) ->
  skip <= length all ->
  (length all - skip) / 1000 < fuel ->
  userHistory_loop client account fuel allResults skip
  = (map (fun i => USER_HISTORY (skip + i * 1000) account)
         (seq 0 ((length all - skip) / 1000 + 1)),
     Returned (allResults ++ skipn skip all)).
Proof.
  intros Hpaged. revert allResults skip.
  induction fuel as [|fuel IH]; intros allResults skip Hskip Hfuel; [lia|].
  cbn [userHistory_loop]. unfold query. rewrite Hpaged. cbn [bind].
  rewrite length_firstn, length_skipn.
  destruct (Nat.lt_ge_cases (length all - skip) 1000) as [Hshort | Hlong].
  - replace (Nat.min 1000 (length all - skip) <? 1000) with true
      by (symmetry; apply Nat.ltb_lt; lia).
    rewrite Nat.div_small by lia. cbn.
    rewrite Nat.add_0_r.
    rewrite firstn_all2 by (rewrite length_skipn; lia). reflexivity.
  - replace (Nat.min 1000 (length all - skip) <? 1000) with false
      by (symmetry; apply Nat.ltb_ge; lia).
    assert (Hdiv : (length all - skip) / 1000
                   = (length all - (skip + 1000)) / 1000 + 1).
    { replace (length all - skip)
        with ((length all - (skip + 1000)) + 1 * 1000) by lia.
      now rewrite Nat.div_add by lia. }
    rewrite IH by lia. cbn [app].
    rewrite Hdiv.
    replace ((length all - (skip + 1000)) / 1000 + 1 + 1)
      with (S ((length all - (skip + 1000)) / 1000 + 1)) by lia.
    cbn [seq map]. rewrite <- seq_shift, map_map.
    f_equal.
    + f_equal. f_equal. lia.
      apply map_ext. intros i. f_equal. lia.
    + f_equal. rewrite <- app_assoc. f_equal.
      rewrite <- drop_drop. apply firstn_skipn.
Qed.

(** When the loop returns, what it returns is what it had, then the
    pages answered in order: full pages, then a short one that ends it;
    the requests ask for them 1000 apart. *)
Lemma userHistory_loop_returned fuel allResults skip all :
  result (userHistory_loop client account fuel allResults skip)
  = Returned all ->
  exists front last,
    requests (userHistory_loop client account fuel allResults skip)
    = map (fun i => USER_HISTORY (skip + i * 1000) account)
          (seq 0 (S (length front)))
    /\ Forall2 (fun q page => client q = Some page)
         (requests (userHistory_loop client account fuel allResults skip))
         (front ++ [last])
    /\ all = allResults ++ concat (front ++ [last])
    /\ Forall (fun page => 1000 <= length page) front
    /\ length last < 1000.
Proof.
  revert allResults skip.
  induction fuel as [|fuel IH]; intros allResults skip; [discriminate|].
  cbn [userHistory_loop]. unfold query.
  destruct (client (USER_HISTORY skip account)) as [page|] eqn:Hpage;
    cbn [bind]; [|discriminate].
  destruct (Nat.ltb_spec (length page) 1000) as [Hshort | Hlong].
  - cbn. intros [= <-]. exists [], page. cbn.
    rewrite Nat.add_0_r, app_nil_r.
    repeat split; auto.
  - specialize (IH (allResults ++ page) (skip + 1000)).
    unfold result, requests in *.
    destruct (userHistory_loop client account fuel (allResults ++ page)
                (skip + 1000)) as [sent o].
    cbn [fst snd app] in *. intros ->.
    destruct (IH eq_refl) as (front & last & Hsent & Hpages & Hall & Hfront & Hlast).
    exists (page :: front), last. subst sent.
    split; [|split; [|split; [|split]]].
    + cbn [length]. rewrite <- (cons_seq (S (length front)) 0).
      cbn [map]. f_equal; [f_equal; lia|].
      rewrite <- seq_shift, map_map. apply map_ext. intros i. f_equal. lia.
    + cbn [app]. constructor; [exact Hpage | exact Hpages].
    + rewrite Hall. cbn [app concat]. now rewrite <- app_assoc.
    + constructor; [exact Hlong | exact Hfront].
    + exact Hlast.
Qed.

End UserHistoryFacts.

(** X7. The pagination of [useUserSnapshots] brings back the whole
    history: on a backend that serves a list of snapshots by pages of
    1000, it returns that list, after requests at the offsets 0, 1000,
    ... up to the first short page (one more request than full pages). *)
Theorem userHistory_round_trip {A : Type}
    (client : user_request -> option (list A)) (account : string)
    (all : list A) (fuel : nat) :
  (forall from,
      client (USER_HISTORY from account)
      = Some (firstn 1000 (skipn from all))) ->
  length all / 1000 < fuel ->
  userHistory client account fuel
  = (map (fun i => USER_HISTORY (i * 1000) account)
         (seq 0 (length all / 1000 + 1)),
     Returned all).
Proof.
  intros Hpaged Hfuel. unfold userHistory.
  rewrite (userHistory_loop_paged client account all) by
    (try assumption; try lia; rewrite Nat.sub_0_r; assumption).
  now rewrite Nat.sub_0_r.
Qed.

Lemma userHistory_round_trip_witness :
  userHistory (paged_history (repeat tt 2500)) "0xa" 3
  = (map (fun i => USER_HISTORY (i * 1000) "0xa")
         (seq 0 (length (repeat tt 2500) / 1000 + 1)),
     Returned (repeat tt 2500)).
Proof.
  apply (userHistory_round_trip (paged_history (repeat tt 2500)) "0xa"
           (repeat tt 2500) 3).
  - intros from. reflexivity.
  - rewrite repeat_length. apply Nat.ltb_lt. reflexivity.
Defined.

(** X8. Whatever the backend, when the pagination of [useUserSnapshots]
    returns, its result is the concatenation of the pages it was
    answered, in order: pages of at least 1000 entries followed by one
    shorter page, requested at the offsets 0, 1000, 2000, ... *)
Theorem userHistory_concatenates_pages {A : Type}
    (client : user_request -> option (list A)) (account : string)
    (fuel : nat) (all : list A) :
  result (userHistory client account fuel) = Returned all ->
  exists front last,
    requests (userHistory client account fuel)
    = map (fun i => USER_HISTORY (i * 1000) account)
          (seq 0 (S (length front)))
    /\ Forall2 (fun q page => client q = Some page)
         (requests (userHistory client account fuel)) (front ++ [last])
    /\ all = concat (front ++ [last])
    /\ Forall (fun page => 1000 <= length page) front
    /\ length last < 1000.
Proof.
  intros Hrun. unfold userHistory in *.
  destruct (userHistory_loop_returned client account fuel [] 0 all Hrun)
    as (front & last & Hsent & Hpages & Hall & Hfront & Hlast).
  exists front, last. repeat split; assumption.
Qed.

Lemma userHistory_concatenates_pages_witness :
  exists front last,
    requests (userHistory (paged_history [1; 2; 3]) "0xa" 1)
    = map (fun i => USER_HISTORY (i * 1000) "0xa") (seq 0 (S (length front)))
    /\ Forall2 (fun q page => paged_history [1; 2; 3] q = Some page)
         (requests (userHistory (paged_history [1; 2; 3]) "0xa" 1))
         (front ++ [last])
    /\ [1; 2; 3] = concat (front ++ [last])
    /\ Forall (fun page => 1000 <= length page) front
    /\ length last < 1000.
Proof.
  apply (userHistory_concatenates_pages (paged_history [1; 2; 3]) "0xa" 1
           [1; 2; 3]).
  reflexivity.
Defined.

(** X9. [useUserSnapshots] stores what the pagination returned and is
    then at rest: for an account without cached snapshots, the effect
    leaves the array of all pages under the account's snapshots, and
    running it again, with any fuel, sends no request. This holds for the
    empty history too: an empty array is truthy. *)
Theorem useUserSnapshots_fetches_once
    (fuel : nat) (client : user_request -> option (list jsval))
    (state : jsval) (account : string)
    (sent : list user_request) (all : list jsval) :
  truthy_key account = true ->
  truthy (read_key state account USER_SNAPSHOTS) = false ->
  userHistory client account fuel = (sent, Returned all) ->
  exists state',
    useUserSnapshots_effect fuel client state account = (sent, Returned state')
    /\ read_key state' account USER_SNAPSHOTS = array_of all
    /\ forall fuel',
         useUserSnapshots_effect fuel' client state' account
         = ([], Returned state').
Proof.
  intros Haccount Hmiss Hrun.
  unfold useUserSnapshots_effect at 1.
  rewrite Hmiss, Haccount, Hrun. cbn [negb andb].
  destruct (callbacks_read_back state account "" (array_of all))
    as (_ & _ & _ & (next & -> & Hread) & _).
  cbn [after_dispatch].
  exists next. split; [reflexivity|]. split; [exact Hread|].
  intros fuel'. unfold useUserSnapshots_effect. rewrite Hread. reflexivity.
Qed.

Lemma useUserSnapshots_fetches_once_witness :
  exists state',
    useUserSnapshots_effect 1 (paged_history []) INITIAL_STATE "0xa"
    = ([USER_HISTORY 0 "0xa"], Returned state')
    /\ read_key state' "0xa" USER_SNAPSHOTS = array_of []
    /\ forall fuel',
         useUserSnapshots_effect fuel' (paged_history []) state' "0xa"
         = ([], Returned state').
Proof.
  apply (useUserSnapshots_fetches_once 1 (paged_history []) INITIAL_STATE
           "0xa" [USER_HISTORY 0 "0xa"] []); reflexivity.
Defined.

(** X10. The start of the chart window only widens. After the effect
    ran it is set; a start already set to a non-zero time is never moved
    later, and is kept when no window is selected; and running the effect
    again with the same clock changes nothing, so the effect settles. *)
Theorem update_startDateTimestamp_only_widens :
  (forall startTime activeWindow startDateTimestamp,
      exists s,
        update_startDateTimestamp startTime activeWindow startDateTimestamp
        = Some s)
  /\ (forall startTime activeWindow s s',
        s <> 0%Z ->
        update_startDateTimestamp startTime activeWindow (Some s) = Some s' ->
        (s' <= s)%Z)
  /\ (forall startTime s,
        s <> 0%Z ->
        update_startDateTimestamp startTime false (Some s) = Some s)
  /\ (forall startTime activeWindow startDateTimestamp,
        update_startDateTimestamp startTime activeWindow
          (update_startDateTimestamp startTime activeWindow startDateTimestamp)
        = update_startDateTimestamp startTime activeWindow startDateTimestamp).
Proof.
  split; [|split; [|split]].
  - intros startTime activeWindow [s|]; cbn; [|eauto].
    destruct (_ || _); eauto.
  - intros startTime activeWindow s s' Hset. cbn.
    apply Z.eqb_neq in Hset as ->. cbn [orb].
    destruct activeWindow; cbn [andb].
    + destruct (Z.ltb_spec startTime s); intros [= <-]; lia.
    + intros [= <-]. lia.
  - intros startTime s Hset. cbn. now apply Z.eqb_neq in Hset as ->.
  - intros startTime activeWindow [s|]; cbn.
    + destruct (Z.eqb_spec s 0) as [-> | Hs]; cbn [orb].
      * cbn. destruct (Z.eqb_spec startTime 0); cbn [orb]; [reflexivity|].
        rewrite Z.ltb_irrefl, andb_false_r. reflexivity.
      * destruct activeWindow; cbn [andb].
        -- destruct (Z.ltb_spec startTime s); cbn.
           ++ destruct (Z.eqb_spec startTime 0); cbn [orb]; [reflexivity|].
              now rewrite Z.ltb_irrefl.
           ++ apply Z.eqb_neq in Hs as ->. cbn [orb andb].
              destruct (Z.ltb_spec startTime s); [lia | reflexivity].
        -- cbn. now apply Z.eqb_neq in Hs as ->.
    + destruct (Z.eqb_spec startTime 0); cbn [orb]; [reflexivity|].
      now rewrite Z.ltb_irrefl, andb_false_r.
Qed.

(** ** Paginated queries: what a caller can rely on *)

Lemma Obj_get_set_is_Some {V : Type} (o : Obj.t V) k v k' :
  is_Some (Obj.get (Obj.set o k v) k') <-> k = k' \/ is_Some (Obj.get o k').
Proof.
  destruct (decide (k = k')) as [<- | Hne].
  - rewrite Obj_get_set_eq. split; [now left | eauto].
  - rewrite Obj_get_set_ne by assumption. tauto.
Qed.

(** The keys of [{...a, ...b}] are those of [a] and those of [b]. *)
Lemma Obj_get_assign_is_Some {V : Type} (a b : Obj.t V) k :
  is_Some (Obj.get (Obj.assign a b) k)
  <-> is_Some (Obj.get a k) \/ In k (Obj.keys b).
Proof.
  unfold Obj.assign, Obj.keys. revert a.
  induction b as [|[k0 v0] b IH]; intros a; cbn [fold_left map In fst snd].
  - tauto.
  - rewrite IH, Obj_get_set_is_Some. tauto.
Qed.

Section SplitQueryMore.

Context {A V R : Type}.
Variable query_of : list A -> R.
Variable localClient : R -> option (Obj.t V).

(** With a backend that answers in full, the slices requested from
    [skip] on make up the rest of the list. *)
Lemma splitQuery_loop_covers fuel list skipCount fetchedData skip :
  answers_in_full query_of localClient ->
  0 < skipCount ->
  skip <= length list ->
  (length list - skip) / skipCount < fuel ->
  exists slices,
    requests (splitQuery_loop query_of localClient fuel list skipCount
                fetchedData skip)
    = map query_of slices
    /\ concat slices = skipn skip list.
Proof.
  intros Hfull Hpos. revert fetchedData skip.
  induction fuel as [|fuel IH]; intros fetchedData skip Hskip Hfuel; [lia|].
  cbn [splitQuery_loop].
  set (end_ := if skip + skipCount <? length list then skip + skipCount
               else length list).
  destruct (Hfull (slice list skip end_)) as (data & Hdata & Hkeys).
  unfold query. rewrite Hdata. cbn [bind].
  rewrite Hkeys, slice_length.
  destruct (Nat.lt_ge_cases (length list - skip) skipCount) as [Hshort | Hlong].
  - assert (Hend : end_ = length list).
    { unfold end_. destruct (Nat.ltb_spec (skip + skipCount) (length list)); lia. }
    rewrite Hend.
    replace (Nat.min (length list - skip) (length list - skip) <? skipCount)
      with true by (symmetry; apply Nat.ltb_lt; lia).
    cbn. exists [slice list skip (length list)]. split; [reflexivity|].
    cbn. rewrite app_nil_r. unfold slice.
    apply firstn_all2. rewrite length_skipn. lia.
  - assert (Hend : end_ = skip + skipCount).
    { unfold end_. destruct (Nat.ltb_spec (skip + skipCount) (length list)); lia. }
    rewrite Hend.
    replace (Nat.min (skip + skipCount - skip) (length list - skip) <? skipCount)
      with false by (symmetry; apply Nat.ltb_ge; lia).
    replace (length list <? skip + skipCount)
      with false by (symmetry; apply Nat.ltb_ge; lia).
    cbn [orb].
    destruct (IH (Obj.assign fetchedData data) (skip + skipCount))
      as (rest & Hsent & Hrest).
    { lia. }
    { replace (length list - skip)
        with ((length list - (skip + skipCount)) + 1 * skipCount) in Hfuel by lia.
      rewrite Nat.div_add in Hfuel by lia. lia. }
    unfold requests in *.
    destruct (splitQuery_loop query_of localClient fuel list skipCount
                (Obj.assign fetchedData data) (skip + skipCount)) as [sent o].
    cbn [fst] in *. subst sent.
    exists (slice list skip (skip + skipCount) :: rest).
    split; [reflexivity|].
    cbn [concat]. rewrite Hrest. unfold slice.
    replace (skip + skipCount - skip) with skipCount by lia.
    rewrite <- drop_drop. apply firstn_skipn.
Qed.

(** A request that the backend refuses ends the loop with an exception. *)
Lemma splitQuery_loop_refused fuel list skipCount fetchedData skip q :
  In q (requests (splitQuery_loop query_of localClient fuel list skipCount
                    fetchedData skip)) ->
  localClient q = None ->
  result (splitQuery_loop query_of localClient fuel list skipCount
            fetchedData skip) = Threw.
Proof.
  revert fetchedData skip.
  induction fuel as [|fuel IH]; intros fetchedData skip; [intros []|].
  cbn [splitQuery_loop]. unfold query.
  destruct (localClient (query_of _)) as [data|] eqn:Hdata; cbn [bind].
  - destruct (_ || _).
    + unfold ret, requests. cbn [fst app].
      intros [<- | []] Hnone. rewrite Hdata in Hnone. discriminate.
    + specialize (IH (Obj.assign fetchedData data) (skip + skipCount)).
      unfold requests, result in *.
      destruct (splitQuery_loop query_of localClient fuel list skipCount
                  (Obj.assign fetchedData data) (skip + skipCount)) as [sent o].
      cbn [fst snd app] in *. intros [<- | Hin] Hnone.
      * rewrite Hdata in Hnone. discriminate.
      * now apply IH.
  - reflexivity.
Qed.

(** The keys of what the loop returns: those it was entered with and
    those of the pages answered. *)
Lemma splitQuery_loop_keys fuel list skipCount fetchedData skip out k :
  result (splitQuery_loop query_of localClient fuel list skipCount
            fetchedData skip) = Returned out ->
  is_Some (Obj.get out k)
  <-> is_Some (Obj.get fetchedData k)
      \/ exists q data,
           In q (requests (splitQuery_loop query_of localClient fuel list
                             skipCount fetchedData skip))
           /\ localClient q = Some data
           /\ In k (Obj.keys data).
Proof.
  revert fetchedData skip.
  induction fuel as [|fuel IH]; intros fetchedData skip; [discriminate|].
  cbn [splitQuery_loop]. unfold query.
  destruct (localClient (query_of _)) as [data|] eqn:Hdata; cbn [bind];
    [|discriminate].
  destruct (_ || _).
  - unfold ret, result, requests. cbn [fst snd app].
    intros [= <-]. rewrite Obj_get_assign_is_Some.
    split; intros [Hold | Hnew]; auto.
    + right. eexists _, _.
      split; [left; reflexivity | split; [exact Hdata | exact Hnew]].
    + destruct Hnew as (q & data' & [<- | []] & Hq & Hk).
      right. rewrite Hdata in Hq. now injection Hq as <-.
  - specialize (IH (Obj.assign fetchedData data) (skip + skipCount)).
    unfold requests, result in *.
    destruct (splitQuery_loop query_of localClient fuel list skipCount
                (Obj.assign fetchedData data) (skip + skipCount)) as [sent o].
    cbn [fst snd app] in *. intros Hout.
    rewrite (IH Hout), Obj_get_assign_is_Some.
    split.
    + intros [[Hold | Hnew] | (q & data' & Hin & Hq & Hk)].
      * now left.
      * right. eexists _, data.
        split; [left; reflexivity | split; [exact Hdata | exact Hnew]].
      * right. exists q, data'.
        split; [right; exact Hin | split; [exact Hq | exact Hk]].
    + intros [Hold | (q & data' & [<- | Hin] & Hq & Hk)].
      * left. now left.
      * left. right. rewrite Hdata in Hq. now injection Hq as <-.
      * right. eauto.
Qed.

End SplitQueryMore.

(** X11. With a positive page size and a backend that answers every
    request in full, [splitQuery] returns, and the slices it requested,
    put end to end, are exactly the list: every item is requested once, in
    order. It takes [floor(n / p) + 1] requests. *)
Theorem splitQuery_covers_list {A V R : Type}
    (query_of : list A -> R) (localClient : R -> option (Obj.t V))
    (fuel : nat) (list : list A) (skipCount : nat) :
  answers_in_full query_of localClient ->
  0 < skipCount ->
  length list / skipCount < fuel ->
  exists slices out,
    splitQuery query_of localClient fuel list skipCount
    = (map query_of slices, Returned out)
    /\ concat slices = list
    /\ length slices = length list / skipCount + 1.
Proof.
  intros Hfull Hpos Hfuel. unfold splitQuery.
  destruct (splitQuery_loop_covers query_of localClient fuel list skipCount
              Obj.empty 0 Hfull Hpos) as (slices & Hsent & Hall);
    [lia | now rewrite Nat.sub_0_r|].
  destruct (splitQuery_loop_full_pages query_of localClient fuel list skipCount
              Obj.empty 0 Hfull Hpos) as (Hcount & out & Hout);
    [lia | now rewrite Nat.sub_0_r|].
  exists slices, out.
  unfold requests, result in *.
  destruct (splitQuery_loop query_of localClient fuel list skipCount
              Obj.empty 0) as [sent o].
  cbn [fst snd] in *. subst sent o.
  split; [reflexivity|]. split; [exact Hall|].
  rewrite length_map, Nat.sub_0_r in Hcount. exact Hcount.
Qed.

Lemma splitQuery_covers_list_witness :
  exists slices out,
    splitQuery (fun sliced => sliced) full_pages 3
      ["a"; "b"; "c"]%string 2
    = (map (fun sliced => sliced) slices, Returned out)
    /\ concat slices = ["a"; "b"; "c"]%string
    /\ length slices = length ["a"; "b"; "c"]%string / 2 + 1.
Proof.
  apply (splitQuery_covers_list (fun sliced => sliced) full_pages 3
           ["a"; "b"; "c"]%string 2).
  - intros sliced. eexists. split; [reflexivity|].
    unfold Obj.keys. now rewrite !length_map.
  - lia.
  - apply Nat.ltb_lt. reflexivity.
Defined.

(** X12. Whatever the backend answers, however it ends, [splitQuery]
    never asks for an item twice: the slices it requested, put end to
    end, are a prefix of the list. *)
Theorem splitQuery_no_item_twice {A V R : Type}
    (query_of : list A -> R) (localClient : R -> option (Obj.t V))
    (fuel : nat) (list : list A) (skipCount : nat) :
  exists slices,
    requests (splitQuery query_of localClient fuel list skipCount)
    = map query_of slices
    /\ concat slices = firstn (length (concat slices)) list.
Proof.
  unfold splitQuery.
  destruct (splitQuery_loop_slices query_of localClient fuel list skipCount
              Obj.empty 0) as (slices & Hsent & Hprefix).
  exists slices. split; [exact Hsent | exact Hprefix].
Qed.

(** X13. With a positive page size [splitQuery] sends at most
    [floor(n / p) + 1] requests, whatever the backend answers: a short
    page can only end it sooner. *)
Theorem splitQuery_requests_bound {A V R : Type}
    (query_of : list A -> R) (localClient : R -> option (Obj.t V))
    (fuel : nat) (list : list A) (skipCount : nat) :
  0 < skipCount ->
  length (requests (splitQuery query_of localClient fuel list skipCount))
  <= length list / skipCount + 1.
Proof.
  intros Hpos. unfold splitQuery.
  pose proof (splitQuery_loop_requests_le query_of localClient fuel list
                skipCount Obj.empty 0 Hpos) as Hle.
  rewrite Nat.sub_0_r in Hle. apply Hle. lia.
Qed.

Lemma splitQuery_requests_bound_witness :
  length (requests (splitQuery (fun sliced => sliced)
                      (fun _ : list string => Some (@Obj.empty unit)) 5
                      ["a"; "b"; "c"]%string 2))
  <= length ["a"; "b"; "c"]%string / 2 + 1.
Proof.
  apply (splitQuery_requests_bound (fun sliced => sliced)
           (fun _ : list string => Some (@Obj.empty unit)) 5
           ["a"; "b"; "c"]%string 2).
  lia.
Defined.

(** X14. With page size 0 [splitQuery] never returns: neither exit test
    can hold, so the loop asks for the empty slice until a request fails
    (here: until the fuel is spent). *)
Theorem splitQuery_page_size_0_never_returns {A V R : Type}
    (query_of : list A -> R) (localClient : R -> option (Obj.t V))
    (fuel : nat) (list : list A) :
  result (splitQuery query_of localClient fuel list 0) = OutOfFuel
  \/ result (splitQuery query_of localClient fuel list 0) = Threw.
Proof.
  unfold splitQuery.
  pose proof (fun out =>
                splitQuery_loop_page_size_0 query_of localClient fuel list
                  Obj.empty 0 out (Nat.le_0_l _)) as Hnever.
  destruct (result _) as [out| |]; [now destruct (Hnever out) | now right | now left].
Qed.

(** X15. A request that fails aborts the whole of [splitQuery]: if the
    backend refused one of the requests sent, the call throws, and
    returns no data of the pages before. *)
Theorem splitQuery_refused_throws {A V R : Type}
    (query_of : list A -> R) (localClient : R -> option (Obj.t V))
    (fuel : nat) (list : list A) (skipCount : nat) (q : R) :
  In q (requests (splitQuery query_of localClient fuel list skipCount)) ->
  localClient q = None ->
  result (splitQuery query_of localClient fuel list skipCount) = Threw.
Proof. unfold splitQuery. apply splitQuery_loop_refused. Qed.

Lemma splitQuery_refused_throws_witness :
  result (splitQuery (fun sliced => sliced)
            (fun sliced : list string =>
               match sliced with
               | ["c"%string] => None
               | _ => full_pages sliced
               end)
            5 ["a"; "b"; "c"]%string 2)
  = Threw.
Proof.
  apply (splitQuery_refused_throws (fun sliced => sliced)
           (fun sliced : list string =>
              match sliced with
              | ["c"%string] => None
              | _ => full_pages sliced
              end)
           5 ["a"; "b"; "c"]%string 2 ["c"%string]).
  - right. left. reflexivity.
  - reflexivity.
Defined.

(** X16. What [splitQuery] returns has exactly the keys of the pages it
    was answered: nothing fetched is dropped and nothing else is added. *)
Theorem splitQuery_keys {A V R : Type}
    (query_of : list A -> R) (localClient : R -> option (Obj.t V))
    (fuel : nat) (list : list A) (skipCount : nat)
    (out : Obj.t V) (k : string) :
  result (splitQuery query_of localClient fuel list skipCount) = Returned out ->
  is_Some (Obj.get out k)
  <-> exists q data,
        In q (requests (splitQuery query_of localClient fuel list skipCount))
        /\ localClient q = Some data
        /\ In k (Obj.keys data).
Proof.
  intros Hout. unfold splitQuery in *.
  rewrite (splitQuery_loop_keys query_of localClient fuel list skipCount
             Obj.empty 0 out k Hout).
  split; [|now right].
  intros [[v Hv] | Hpages]; [discriminate | exact Hpages].
Qed.

Lemma splitQuery_keys_witness :
  is_Some (Obj.get [("a"%string, tt); ("b"%string, tt); ("c"%string, tt)]
             "c")
  <-> exists q data,
        In q (requests (splitQuery (fun sliced => sliced) full_pages 3
                          ["a"; "b"; "c"]%string 2))
        /\ full_pages q = Some data
        /\ In "c"%string (Obj.keys data).
Proof.
  apply (splitQuery_keys (fun sliced => sliced) full_pages 3
           ["a"; "b"; "c"]%string 2).
  reflexivity.
Defined.

(** X17. A list shorter than the page size is fetched in one request,
    for the whole list; the result is that page, or the exception of the
    request. *)
Theorem splitQuery_single_page {A V R : Type}
    (query_of : list A -> R) (localClient : R -> option (Obj.t V))
    (fuel : nat) (list : list A) (skipCount : nat) :
  length list < skipCount ->
  0 < fuel ->
  splitQuery query_of localClient fuel list skipCount
  = match localClient (query_of list) with
    | Some data => ([query_of list], Returned (Obj.assign Obj.empty data))
    | None => ([query_of list], Threw)
    end.
Proof.
  intros Hshort Hfuel. destruct fuel as [|fuel]; [lia|].
  unfold splitQuery. cbn [splitQuery_loop].
  replace (0 + skipCount <? length list) with false
    by (symmetry; apply Nat.ltb_ge; lia).
  unfold slice. rewrite skipn_O, Nat.sub_0_r, firstn_all.
  unfold query. destruct (localClient (query_of list)) as [data|];
    cbn [bind]; [|reflexivity].
  replace (length list <? 0 + skipCount) with true
    by (symmetry; apply Nat.ltb_lt; lia).
  rewrite orb_true_r. reflexivity.
Qed.

Lemma splitQuery_single_page_witness :
  splitQuery (fun sliced => sliced) full_pages 1 ["a"; "b"]%string 100
  = match full_pages ["a"; "b"]%string with
    | Some data => ([["a"; "b"]%string], Returned (Obj.assign Obj.empty data))
    | None => ([["a"; "b"]%string], Threw)
    end.
Proof.
  apply (splitQuery_single_page (fun sliced => sliced) full_pages 1
           ["a"; "b"]%string 100).
  - apply Nat.ltb_lt. reflexivity.
  - lia.
Defined.

(** ** Blocks and share values: what a caller can rely on *)

Section BlocksMore.

Variable parseInt : option string -> float.

Lemma blocks_of_fold fetchedData blocks :
  fold_left
    (fun blocks (row : string * list BlockRow.t) =>
       let '(t, found) := row in
       match found with
       | first :: _ =>
           blocks ++
             [ Block.mk (parseInt (nth_error (split_on "t"%char t) 1))
                        (parseInt (Some (BlockRow.number first))) ]
       | [] => blocks
       end)
    fetchedData blocks
  = blocks ++ blocks_of parseInt fetchedData.
Proof.
  unfold blocks_of. revert blocks.
  induction fetchedData as [|[t found] rest IH]; intros blocks;
    cbn [fold_left].
  - now rewrite app_nil_r.
  - rewrite IH. rewrite (IH (match found with [] => [] | _ :: _ => _ end)).
    destruct found as [|first others]; [reflexivity|].
    now rewrite <- app_assoc.
Qed.

End BlocksMore.

(** The loop over the fetched data gives one block per key that resolved
    to at least one block, in the order of the keys. *)
Lemma blocks_of_flat_map
    (parseInt : option string -> float)
    (fetchedData : Obj.t (list BlockRow.t)) :
  blocks_of parseInt fetchedData
  = flat_map
      (fun row : string * list BlockRow.t =>
         match snd row with
         | first :: _ =>
             [ Block.mk (parseInt (nth_error (split_on "t"%char (fst row)) 1))
                        (parseInt (Some (BlockRow.number first))) ]
         | [] => []
         end)
      fetchedData
  /\ length (blocks_of parseInt fetchedData)
     = length (List.filter
                 (fun row : string * list BlockRow.t =>
                    match snd row with [] => false | _ :: _ => true end)
                 fetchedData).
Proof.
  induction fetchedData as [|[t found] rest [IHblocks IHlength]].
  - split; reflexivity.
  - unfold blocks_of in *. cbn [fold_left flat_map List.filter fst snd].
    rewrite blocks_of_fold. unfold blocks_of.
    destruct found as [|first others]; cbn [app length].
    + split; [exact IHblocks | exact IHlength].
    + split; [now rewrite IHblocks | now rewrite IHlength].
Qed.

(** X18. What [getBlocksFromTimestamps] builds. For an empty list it
    returns no block and sends nothing. For any other list it sends the
    requests of [splitQuery] over the timestamps and nothing more; it
    throws, or does not end, as [splitQuery] does; and when [splitQuery]
    returns the merged data, it returns one block per key of that data
    that resolved to at least one block, in the order of the keys: the
    timestamp is read from the key after its [t], the number from the
    first block under the key, a key with an empty list of blocks is
    dropped. So with the keys [t1000], unresolved, and [t2000], resolved
    to the blocks 8 and 9, it returns the one block (2000, 8). *)
Theorem getBlocksFromTimestamps_one_block_per_resolved_key :
  (forall (parseInt : option string -> float) (fuel : nat)
          (blockClient : blockClient_t) (timestamps : list Z)
          (skipCount : nat),
      getBlocksFromTimestamps parseInt fuel blockClient (Some timestamps)
        skipCount
      = match timestamps with
        | [] => ([], Returned [])
        | _ :: _ =>
            let fetched :=
              splitQuery GET_BLOCKS blockClient fuel timestamps skipCount in
            (requests fetched,
             match result fetched with
             | Returned fetchedData =>
                 Returned
                   (flat_map
                      (fun row : string * list BlockRow.t =>
                         match snd row with
                         | first :: _ =>
                             [ Block.mk
                                 (parseInt
                                    (nth_error (split_on "t"%char (fst row)) 1))
                                 (parseInt (Some (BlockRow.number first))) ]
                         | [] => []
                         end)
                      fetchedData)
             | Threw => Threw
             | OutOfFuel => OutOfFuel
             end)
        end)
  /\ (forall (parseInt : option string -> float) (fuel : nat)
             (blockClient : blockClient_t) (timestamps : list Z)
             (skipCount : nat) (blocks : list Block.t),
        result (getBlocksFromTimestamps parseInt fuel blockClient
                  (Some timestamps) skipCount) = Returned blocks ->
        timestamps = [] /\ blocks = []
        \/ exists fetchedData,
             result (splitQuery GET_BLOCKS blockClient fuel timestamps skipCount)
             = Returned fetchedData
             /\ length blocks
                = length (List.filter
                            (fun row : string * list BlockRow.t =>
                               match snd row with
                               | [] => false
                               | _ :: _ => true
                               end)
                            fetchedData))
  /\ getBlocksFromTimestamps parseInt_digits 1
       (fun _ => Some [ ("t1000"%string, []);
                        ("t2000"%string, [BlockRow.mk "8"; BlockRow.mk "9"]) ])
       (Some [1000%Z; 2000%Z]) 500
     = ([GET_BLOCKS [1000%Z; 2000%Z]], Returned [Block.mk 2000 8])
  /\ getBlocksFromTimestamps parseInt_digits 1 blockClient_two
       (Some [1000%Z; 2000%Z]) 500
     = ([GET_BLOCKS [1000%Z; 2000%Z]],
        Returned [Block.mk 1000 7; Block.mk 2000 8]).
Proof.
  assert (Hbuilds :
            forall parseInt fuel blockClient t ts skipCount,
              getBlocksFromTimestamps parseInt fuel blockClient
                (Some (t :: ts)) skipCount
              = (requests (splitQuery GET_BLOCKS blockClient fuel (t :: ts)
                             skipCount),
                 match result (splitQuery GET_BLOCKS blockClient fuel (t :: ts)
                                 skipCount) with
                 | Returned fetchedData =>
                     Returned (blocks_of parseInt fetchedData)
                 | Threw => Threw
                 | OutOfFuel => OutOfFuel
                 end)).
  { intros parseInt fuel blockClient t ts skipCount.
    unfold getBlocksFromTimestamps, requests, result.
    destruct (splitQuery GET_BLOCKS blockClient fuel (t :: ts) skipCount)
      as [sent [fetchedData| |]]; cbn [bind ret fst snd];
      rewrite ?app_nil_r; reflexivity. }
  split; [|split; [|split; reflexivity]].
  - intros parseInt fuel blockClient [|t ts] skipCount; [reflexivity|].
    rewrite Hbuilds. cbv zeta.
    destruct (result _) as [fetchedData| |]; try reflexivity.
    now rewrite (proj1 (blocks_of_flat_map parseInt fetchedData)).
  - intros parseInt fuel blockClient [|t ts] skipCount blocks.
    + intros [= <-]. now left.
    + rewrite Hbuilds. unfold result at 1. cbn [snd].
      destruct (result _) as [fetchedData| |] eqn:Hfetched; try discriminate.
      intros [= <-]. right. exists fetchedData. split; [reflexivity|].
      apply (blocks_of_flat_map parseInt fetchedData).
Qed.

(** X19. [getBlocksFromTimestamps] returns all or nothing: with
    [undefined] for the timestamps it throws before any request, and when
    the backend refuses one of its requests it throws, whatever the pages
    before held. *)
Theorem getBlocksFromTimestamps_all_or_nothing
    (parseInt : option string -> float) (fuel : nat)
    (blockClient : blockClient_t) (skipCount : nat) :
  getBlocksFromTimestamps parseInt fuel blockClient None skipCount
  = ([], Threw)
  /\ forall timestamps q,
       In q (requests (getBlocksFromTimestamps parseInt fuel blockClient
                         (Some timestamps) skipCount)) ->
       blockClient q = None ->
       result (getBlocksFromTimestamps parseInt fuel blockClient
                 (Some timestamps) skipCount) = Threw.
Proof.
  split; [reflexivity|].
  intros [|t ts] q; [intros []|].
  unfold getBlocksFromTimestamps.
  pose proof (splitQuery_refused_throws GET_BLOCKS blockClient fuel (t :: ts)
                skipCount q) as Hthrows.
  unfold requests, result in *.
  destruct (splitQuery GET_BLOCKS blockClient fuel (t :: ts) skipCount)
    as [sent [fetched| |]]; cbn [bind ret fst snd] in *.
  - rewrite app_nil_r. intros Hin Hnone. discriminate (Hthrows Hin Hnone).
  - reflexivity.
  - intros Hin Hnone. discriminate (Hthrows Hin Hnone).
Qed.



(** ** Percent changes: the guard at work *)

(** X21. [getPercentChange] answers 0 whenever the value of 24 hours ago
    is absent or reads as a zero, whatever the value now is: the division
    by zero never shows. *)
Theorem getPercentChange_zero_base (parseFloatStr : string -> float)
    (valueNow value24HoursAgo : option BigDecimal) :
  PrimFloat.eqb (parseFloat_or_0 parseFloatStr value24HoursAgo) 0 = true ->
  getPercentChange parseFloatStr valueNow value24HoursAgo = 0%float.
Proof.
  intros Hzero. unfold getPercentChange.
  rewrite (percent_of_zero_not_finite _ _ Hzero).
  now rewrite orb_true_r.
Qed.

Lemma getPercentChange_zero_base_witness :
  getPercentChange parseFloatStr_nan (Some (SNum 42)) None = 0%float.
Proof.
  apply (getPercentChange_zero_base parseFloatStr_nan (Some (SNum 42)) None).
  reflexivity.
Defined.

(** X22. [get2DayPercentChange] answers the change of the last 24 hours
    with the percentage 0 whenever the change of the 24 hours before is a
    zero, as when both older values are absent. *)
Theorem get2DayPercentChange_zero_base (parseFloatStr : string -> float)
    (valueNow : BigDecimal) (value24HoursAgo value48HoursAgo : option BigDecimal) :
  PrimFloat.eqb
    (parseFloat_or_0 parseFloatStr value24HoursAgo
     - parseFloat_or_0 parseFloatStr value48HoursAgo) 0 = true ->
  get2DayPercentChange parseFloatStr valueNow value24HoursAgo value48HoursAgo
  = ((parseFloat parseFloatStr valueNow
      - parseFloat_or_0 parseFloatStr value24HoursAgo)%float,
     0%float).
Proof.
  intros Hzero. unfold get2DayPercentChange.
  rewrite percent_of_zero_not_finite.
  - now rewrite orb_true_r.
  - unfold reparse. rewrite Hzero. reflexivity.
Qed.

Lemma get2DayPercentChange_zero_base_witness :
  get2DayPercentChange parseFloatStr_nan (SNum 42) None None
  = ((parseFloat parseFloatStr_nan (SNum 42)
      - parseFloat_or_0 parseFloatStr_nan None)%float,
     0%float).
Proof.
  apply (get2DayPercentChange_zero_base parseFloatStr_nan (SNum 42) None None).
  reflexivity.
Defined.

(** ** The daily liquidity chart: the series as a whole *)

Lemma days_from_map dayIndex n :
  days_from dayIndex n
  = map (fun i => ((dayIndex + Z.of_nat i) * 86400)%Z) (seq 0 n).
Proof.
  revert dayIndex.
  induction n as [|n IH]; intros dayIndex; [reflexivity|].
  cbn [days_from seq map]. rewrite IH, <- seq_shift, map_map.
  f_equal; [f_equal; lia|].
  apply map_ext. intros i. f_equal. lia.
Qed.

(** X23. The daily series has one entry per day, no day skipped or
    repeated: its dates are the starts of consecutive days from the start
    day of the iteration to the day before the current one. *)
Theorem useUserLiquidityChart_consecutive_days
    (parseFloatStr : string -> float) (client : dayClient_t) (now : Z)
    (history : option (list Snapshot.t)) (startDateTimestamp : option Z)
    (run : Fetch request (list ChartEntry.t)) (entries : list ChartEntry.t) :
  useUserLiquidityChart parseFloatStr client now history startDateTimestamp
  = Some run ->
  result run = Returned entries ->
  exists h dayIndex,
    history = Some h
    /\ start_dayIndex startDateTimestamp (sort_snapshots h) = Some dayIndex
    /\ map ChartEntry.date entries
       = map (fun i => ((dayIndex + Z.of_nat i) * 86400)%Z)
             (seq 0 (length entries))
    /\ length entries = Z.to_nat (Z.quot now 86400 - dayIndex).
Proof.
  intros Hrun Hentries.
  unfold useUserLiquidityChart in Hrun.
  destruct history as [h|]; [|discriminate].
  destruct startDateTimestamp as [s|]; [|discriminate].
  destruct (_ && _); [|discriminate].
  injection Hrun as <-.
  apply fetchData_dates in Hentries as (dayIndex & Hstart & Hdates).
  exists h, dayIndex. split; [reflexivity|]. split; [exact Hstart|].
  assert (Hlen : length entries = Z.to_nat (Z.quot now 86400 - dayIndex)).
  { rewrite <- (length_map ChartEntry.date), Hdates.
    unfold dayTimestamps_of. rewrite days_from_map.
    now rewrite length_map, length_seq. }
  split; [|exact Hlen].
  rewrite Hdates, Hlen. unfold dayTimestamps_of. apply days_from_map.
Qed.

Lemma useUserLiquidityChart_consecutive_days_witness :
  exists h dayIndex,
    Some [snapshot_A 100 10; snapshot_A 200 15] = Some h
    /\ start_dayIndex (Some 50%Z) (sort_snapshots h) = Some dayIndex
    /\ map ChartEntry.date
         [ ChartEntry.mk 0 150%float; ChartEntry.mk 86400 150%float ]
       = map (fun i => ((dayIndex + Z.of_nat i) * 86400)%Z)
             (seq 0 (length [ ChartEntry.mk 0 150%float;
                              ChartEntry.mk 86400 150%float ]))
    /\ length [ ChartEntry.mk 0 150%float; ChartEntry.mk 86400 150%float ]
       = Z.to_nat (Z.quot (2 * 86400 + 5) 86400 - dayIndex).
Proof.
  apply (useUserLiquidityChart_consecutive_days parseFloatStr_nan
           (dayClient_of [dayData_A 0 100 1000]) (2 * 86400 + 5)%Z
           (Some [snapshot_A 100 10; snapshot_A 200 15]) (Some 50%Z)
           ([PAIR_DAY_DATA_BULK ["A"%string; "A"%string] (Some 50%Z)],
            Returned [ ChartEntry.mk 0 150%float; ChartEntry.mk 86400 150%float ])).
  - reflexivity.
  - reflexivity.
Defined.

(** X24. The chart is fetched exactly when there are snapshots and a
    non-zero window start, and then with a single query: the bulk query
    for the pair of every snapshot, in order and with repeats, from the
    window start. *)
Theorem useUserLiquidityChart_single_bulk_query
    (parseFloatStr : string -> float) (client : dayClient_t) (now : Z)
    (history : option (list Snapshot.t)) (startDateTimestamp : option Z) :
  match history, startDateTimestamp with
  | Some (first :: rest), Some s =>
      if (s =? 0)%Z
      then useUserLiquidityChart parseFloatStr client now history
             startDateTimestamp = None
      else exists run,
          useUserLiquidityChart parseFloatStr client now history
            startDateTimestamp = Some run
          /\ requests run
             = [PAIR_DAY_DATA_BULK (map Snapshot.pair_id (first :: rest))
                  (Some s)]
  | _, _ =>
      useUserLiquidityChart parseFloatStr client now history
        startDateTimestamp = None
  end.
Proof.
  destruct history as [[|first rest]|]; destruct startDateTimestamp as [s|];
    try reflexivity.
  - unfold useUserLiquidityChart. cbn [length]. now rewrite andb_false_r.
  - unfold useUserLiquidityChart.
    destruct (s =? 0)%Z; [reflexivity|]. cbn [negb andb length Nat.ltb Nat.leb].
    eexists. split; [reflexivity|].
    unfold fetchData.
    destruct (sort_snapshots_head (first :: rest)) as (head & tail & Hsorted & _);
      [discriminate|].
    rewrite Hsorted. unfold start_dayIndex.
    destruct (_ >? _)%Z; unfold query, requests;
      destruct (client _); reflexivity.
Qed.

Lemma fold_latest_keeps positions known :
  exists kept,
    fold_left latest positions (Some known) = Some kept
    /\ (Ownership.timestamp known <= Ownership.timestamp kept)%Z.
Proof.
  revert known.
  induction positions as [|position positions IH]; intros known;
    cbn [fold_left].
  - exists known. split; [reflexivity | lia].
  - cbn [latest].
    destruct (Z.ltb_spec (Ownership.timestamp known)
                (Snapshot.timestamp position)) as [Hlt | Hge].
    + destruct (IH (entry_of position)) as (kept & Hfold & Hle).
      exists kept. split; [exact Hfold|]. cbn in Hle. lia.
    + apply IH.
Qed.

(** X25. The ownership map never forgets a pool: once a pool has an
    entry it has one after every later day, with a timestamp that is not
    older, even when the balance the user holds went to zero. *)
Theorem ownership_never_forgets
    (parseFloatStr : string -> float) (history : list Snapshot.t)
    (pairDayDatas : list PairDayData.t) (days more : list Z)
    (id : string) (known : Ownership.t) :
  Obj.get (fst (run_days parseFloatStr history pairDayDatas days)) id
  = Some known ->
  exists kept,
    Obj.get (fst (run_days parseFloatStr history pairDayDatas (days ++ more)))
      id = Some kept
    /\ (Ownership.timestamp known <= Ownership.timestamp kept)%Z.
Proof.
  revert known.
  induction more as [|day more IH] using rev_ind; intros known Hknown.
  - rewrite app_nil_r. exists known. split; [exact Hknown | lia].
  - destruct (IH known Hknown) as (mid & Hmid & Hle).
    rewrite app_assoc, run_days_snoc, fold_update_ownership_get, Hmid.
    destruct (fold_latest_keeps
                (List.filter (fun p => String.eqb (Snapshot.pair_id p) id)
                   (relevantPositions_of history day)) mid)
      as (kept & Hkept & Hle').
    exists kept. split; [exact Hkept | lia].
Qed.

Lemma ownership_never_forgets_witness :
  exists kept,
    Obj.get
      (fst (run_days parseFloatStr_nan [snapshot_A 100 10; snapshot_A 200 15]
              [dayData_A 0 100 1000] ([0%Z] ++ [86400%Z])))
      "A"
    = Some kept
    /\ (Ownership.timestamp (Ownership.mk (SNum 15) 200)
        <= Ownership.timestamp kept)%Z.
Proof.
  apply (ownership_never_forgets parseFloatStr_nan
           [snapshot_A 100 10; snapshot_A 200 15] [dayData_A 0 100 1000]
           [0%Z] [86400%Z] "A" (Ownership.mk (SNum 15) 200)).
  reflexivity.
Defined.

(** X26. Where the series starts. The history has an earliest snapshot;
    when its time in seconds exceeds the day index of the window start
    the iteration starts on that snapshot's day, and on the window's day
    otherwise. *)
Theorem start_dayIndex_of_history (startDateTimestamp : option Z)
    (history : list Snapshot.t) :
  history <> [] ->
  exists earliest,
    In earliest history
    /\ Forall (fun s => (Snapshot.timestamp earliest <= Snapshot.timestamp s)%Z)
         history
    /\ let window :=
         match startDateTimestamp with
         | Some s => (s / 86400)%Z
         | None => 0%Z
         end in
       start_dayIndex startDateTimestamp (sort_snapshots history)
       = Some (if (Snapshot.timestamp earliest >? window)%Z
               then Z.quot (Snapshot.timestamp earliest) 86400
               else window).
Proof.
  intros Hsome.
  destruct (sort_snapshots_head history Hsome)
    as (earliest & rest & Hsorted & Hin & Hmin).
  exists earliest. split; [exact Hin|]. split; [exact Hmin|].
  rewrite Hsorted. unfold start_dayIndex.
  destruct startDateTimestamp as [s|]; cbn zeta.
  - destruct (Z.eqb_spec s 0) as [-> | _]; [|].
    + change (0 / 86400)%Z with 0%Z. now destruct (_ >? _)%Z.
    + now destruct (_ >? _)%Z.
  - now destruct (_ >? _)%Z.
Qed.

Lemma start_dayIndex_of_history_witness :
  exists earliest,
    In earliest [snapshot_A 200 15; snapshot_A 100 10]
    /\ Forall (fun s => (Snapshot.timestamp earliest <= Snapshot.timestamp s)%Z)
         [snapshot_A 200 15; snapshot_A 100 10]
    /\ let window := (50 / 86400)%Z in
       start_dayIndex (Some 50%Z)
         (sort_snapshots [snapshot_A 200 15; snapshot_A 100 10])
       = Some (if (Snapshot.timestamp earliest >? window)%Z
               then Z.quot (Snapshot.timestamp earliest) 86400
               else window).
Proof.
  apply (start_dayIndex_of_history (Some 50%Z)
           [snapshot_A 200 15; snapshot_A 100 10]).
  discriminate.
Defined.

Lemma insert_snapshot_perm a sorted :
  Permutation (insert_snapshot a sorted) (a :: sorted).
Proof.
  induction sorted as [|b sorted IH]; cbn; [reflexivity|].
  destruct (_ >? 0)%Z; [|reflexivity].
  rewrite IH. apply perm_swap.
Qed.

Lemma insert_snapshot_sorted a sorted :
  StronglySorted
    (fun x y => (Snapshot.timestamp x <= Snapshot.timestamp y)%Z) sorted ->
  StronglySorted
    (fun x y => (Snapshot.timestamp x <= Snapshot.timestamp y)%Z)
    (insert_snapshot a sorted).
Proof.
  induction sorted as [|b sorted IH]; intros Hsorted; cbn.
  - constructor; constructor.
  - apply StronglySorted_inv in Hsorted as [Htail Hb].
    unfold compare_snapshots.
    destruct (Z.gtb_spec (Snapshot.timestamp a) (Snapshot.timestamp b));
      cbn.
    + constructor; [now apply IH|].
      rewrite (insert_snapshot_perm a sorted). constructor; [lia | exact Hb].
    + constructor; [now constructor|].
      constructor; [lia|].
      eapply Forall_impl; [exact Hb|]. cbn. intros s Hs. lia.
Qed.

(** X27. The sort of the snapshots keeps them all and puts them in
    ascending order of timestamp. *)
Theorem sort_snapshots_sorted (history : list Snapshot.t) :
  Permutation (sort_snapshots history) history
  /\ StronglySorted
       (fun x y => (Snapshot.timestamp x <= Snapshot.timestamp y)%Z)
       (sort_snapshots history).
Proof.
  induction history as [|a history [IHperm IHsorted]].
  - split; [reflexivity | constructor].
  - unfold sort_snapshots in *. cbn [fold_right]. split.
    + rewrite insert_snapshot_perm. now constructor.
    + now apply insert_snapshot_sorted.
Qed.

(** ** Comparing objects, shortening addresses *)

Lemma strict_neq_undefined (v w : prim) :
  v <> PUndefined -> strict_neq v w = false -> w <> PUndefined.
Proof. destruct v, w; cbn; congruence. Qed.

(** X28. When [isEquivalent] holds. For two objects of primitive values,
    the first without an [undefined] value, [isEquivalent(a, b)] is true
    exactly when they have the same keys and, under each key, values that
    are strictly equal. Without the proviso it can hold of objects with
    different keys: [isEquivalent({x: undefined}, {y: 1})] is true, and
    false the other way round. *)
Theorem isEquivalent_iff_same_properties (a b : Obj.t prim) :
  List.NoDup (Obj.keys a) ->
  List.NoDup (Obj.keys b) ->
  (forall k, Obj.get a k <> Some PUndefined) ->
  (isEquivalent a b = true
   <-> forall k,
         (is_Some (Obj.get a k) <-> is_Some (Obj.get b k))
         /\ strict_neq (get_prim a k) (get_prim b k) = false)
  /\ isEquivalent [("x"%string, PUndefined)] [("y"%string, PNum 1)] = true
  /\ isEquivalent [("y"%string, PNum 1)] [("x"%string, PUndefined)] = false.
Proof.
  intros Ha Hb Hdefined. split; [|split; reflexivity].
  unfold isEquivalent. split.
  - destruct (Nat.eqb_spec (length (Obj.keys a)) (length (Obj.keys b)))
      as [Hlen | Hlen]; cbn [negb]; [|discriminate].
    rewrite forallb_forall. intros Hsame.
    assert (Hin : forall k, In k (Obj.keys a) ->
                            strict_neq (get_prim a k) (get_prim b k) = false).
    { intros k Hk. apply Hsame in Hk. now apply negb_true_iff in Hk. }
    assert (Hincl : incl (Obj.keys a) (Obj.keys b)).
    { intros k Hk. specialize (Hin k Hk).
      apply Obj_get_is_Some_keys in Hk as [v Hv].
      apply Obj_get_is_Some_keys.
      apply strict_neq_undefined in Hin.
      - unfold get_prim in Hin. destruct (Obj.get b k); [eauto | congruence].
      - unfold get_prim. rewrite Hv. intros ->. now apply (Hdefined k). }
    assert (Hback : incl (Obj.keys b) (Obj.keys a)).
    { apply NoDup_length_incl; [exact Ha | lia | exact Hincl]. }
    intros k. split.
    + rewrite !Obj_get_is_Some_keys. split; [apply Hincl | apply Hback].
    + destruct (in_dec String.string_dec k (Obj.keys a)) as [Hk | Hk];
        [now apply Hin|].
      assert (Hkb : ~ In k (Obj.keys b)) by (intros Hkb; now apply Hk, Hback).
      rewrite <- Obj_get_is_Some_keys in Hk, Hkb.
      unfold get_prim.
      destruct (Obj.get a k); [destruct Hk; eauto|].
      destruct (Obj.get b k); [destruct Hkb; eauto | reflexivity].
  - intros Hsame.
    assert (Hlen : length (Obj.keys a) = length (Obj.keys b)).
    { apply Nat.le_antisymm; apply NoDup_incl_length; try assumption;
        intros k Hk; apply Obj_get_is_Some_keys;
        apply Obj_get_is_Some_keys in Hk; now apply (Hsame k). }
    rewrite Hlen, Nat.eqb_refl. cbn [negb].
    apply forallb_forall. intros k _.
    apply negb_true_iff. apply Hsame.
Qed.

Lemma isEquivalent_iff_same_properties_witness :
  (isEquivalent [("x"%string, PNum 1); ("y"%string, PBool true)]
                [("y"%string, PBool true); ("x"%string, PNum 1)] = true
   <-> forall k,
         (is_Some (Obj.get [("x"%string, PNum 1); ("y"%string, PBool true)] k)
          <-> is_Some (Obj.get [("y"%string, PBool true); ("x"%string, PNum 1)] k))
         /\ strict_neq
              (get_prim [("x"%string, PNum 1); ("y"%string, PBool true)] k)
              (get_prim [("y"%string, PBool true); ("x"%string, PNum 1)] k)
            = false)
  /\ isEquivalent [("x"%string, PUndefined)] [("y"%string, PNum 1)] = true
  /\ isEquivalent [("y"%string, PNum 1)] [("x"%string, PUndefined)] = false.
Proof.
  apply (isEquivalent_iff_same_properties
           [("x"%string, PNum 1); ("y"%string, PBool true)]
           [("y"%string, PBool true); ("x"%string, PNum 1)]).
  - apply List.NoDup_cons; [cbn; intros [Heq | []]; discriminate|].
    apply List.NoDup_cons; [intros [] | apply List.NoDup_nil].
  - apply List.NoDup_cons; [cbn; intros [Heq | []]; discriminate|].
    apply List.NoDup_cons; [intros [] | apply List.NoDup_nil].
  - intros k. cbn [Obj.get].
    destruct (String.eqb "x" k); [discriminate|].
    destruct (String.eqb "y" k); discriminate.
Defined.

Lemma string_length_append (s1 s2 : string) :
  String.length (s1 +:+ s2) = String.length s1 + String.length s2.
Proof.
  induction s1 as [|c s1 IH]; [reflexivity|].
  change (S (String.length (s1 +:+ s2))
          = S (String.length s1) + String.length s2).
  now rewrite IH.
Qed.

Lemma string_length_substring (n m : nat) (s : string) :
  String.length (String.substring n m s) = Nat.min m (String.length s - n).
Proof.
  revert n m. induction s as [|c s IH]; intros [|n] [|m]; cbn; try reflexivity.
  - now rewrite IH, Nat.sub_0_r.
  - apply IH.
  - apply IH.
Qed.

(** X29. [shortenAddress] throws on anything [isAddress] rejects; for a
    checksummed address of 42 characters and at most 40 characters asked
    on each side it gives [2 * chars + 5] characters: the first
    [chars + 2], three dots, and the last [chars]. *)
Theorem shortenAddress_length (isAddress : string -> option string)
    (address : string) (chars : nat) :
  match isAddress address with
  | None => shortenAddress isAddress address chars = None
  | Some parsed =>
      String.length parsed = 42 ->
      chars <= 40 ->
      shortenAddress isAddress address chars
      = Some (String.substring 0 (chars + 2) parsed
              +:+ "..." +:+ String.substring (42 - chars) chars parsed)
      /\ String.length
           (String.substring 0 (chars + 2) parsed
            +:+ "..." +:+ String.substring (42 - chars) chars parsed)
         = 2 * chars + 5
  end.
Proof.
  unfold shortenAddress.
  destruct (isAddress address) as [parsed|]; [|reflexivity].
  intros Hlen Hchars.
  destruct parsed as [|c parsed]; [discriminate|].
  cbn [truthy_key]. split.
  - unfold substring_to, substring_from. rewrite Hlen.
    do 4 f_equal. lia.
  - rewrite !string_length_append, !string_length_substring, Hlen.
    cbn [String.length]. lia.
Qed.
